(** * Falling Emojis: the board / piece engine of the two page components

    The repository holds two variants of the same React page component:
    - [src/mini-app/app/page.tsx]  (module [Page] below): typed pieces,
      lines / level / drop interval, game over when row 0 is occupied;
    - [src/unnamed/part_000]       (module [Part0] below): untyped pieces,
      flat scoring, game over when the current piece collides.

    Numbers are JavaScript numbers holding small integers, modelled as [Z];
    arrays are lists, read with stdpp's lookup and written with its insert.
    A React event handler runs in the closure of the render that created it:
    it READS the state of that render and ISSUES setter calls, which React
    applies in order to produce the next state.  A handler is therefore a
    function of the render state [s] that builds an update [State -> State]
    (the setter calls, composed with [>>>]); [invoke] applies that update to
    [s] itself.  [Math.random] is an argument: the shapes it would draw. *)

From Stdlib Require Import ZArith List Bool Lia.
From stdpp Require Import base numbers list strings.
Import ListNotations.

(** ** Matrices: [number[][]] *)

Abbreviation Matrix := (list (list Z)).

Definition EMPTY_CELL : Z := 0.

(** [m[r][c]] as an option: [None] is JavaScript's [undefined]. *)
Definition get (m : Matrix) (r c : nat) : option Z :=
  m !! r ≫= fun row => row !! c.

(** [m[r][c]] where the source only reads inside the matrix. *)
Definition cell (m : Matrix) (r c : nat) : Z := default EMPTY_CELL (get m r c).

(** [m[r][c] = v] on an existing row and column.  The source guards every
    such write, so the write never extends an array. *)
Definition set2 (m : Matrix) (r c : nat) (v : Z) : Matrix :=
  alter (fun row => <[c := v]> row) r m.

(** A [for (let i = k; ...; i++)] loop over an array that threads a value. *)
Fixpoint forEachFrom {A St : Type} (f : nat -> A -> St -> St) (k : nat) (l : list A) (s : St) : St :=
  match l with
  | [] => s
  | a :: l' => forEachFrom f (S k) l' (f k a s)
  end.

(** A [for] loop over an array whose body may [return true]. *)
Fixpoint anyFrom {A : Type} (f : nat -> A -> bool) (k : nat) (l : list A) : bool :=
  match l with
  | [] => false
  | a :: l' => f k a || anyFrom f (S k) l'
  end.

(** [Array.from({ length: rows }, () => Array(cols).fill(0))] *)
Definition zeros (rows cols : nat) : Matrix := replicate rows (replicate cols EMPTY_CELL).

(** [rotateMatrix], the same text in both files (part_000 lines 65-74,
    page.tsx lines 270-279):
<<
  const size = matrix.length;
  const result = Array.from({ length: size }, () => Array(size).fill(0));
  for (let r = 0; r < size; r++)
    for (let c = 0; c < size; c++)
      result[c][size - 1 - r] = matrix[r][c];
>>
    Every shape of both files is square, and so is every rotation of one, so
    [matrix[r][c]] is always a number there ([cell] reads 0 where the source
    would read [undefined], outside a square matrix). *)
Definition rotateRow (matrix : Matrix) (size r : nat) (result : Matrix) : Matrix :=
  foldl (fun result c => set2 result c (size - 1 - r) (cell matrix r c)) result (seq 0 size).

Definition rotateMatrix (matrix : Matrix) : Matrix :=
  let size := length matrix in
  foldl (fun result r => rotateRow matrix size r result) (zeros size size) (seq 0 size).

(** A matrix with [n] rows of [n] cells. *)
Definition square (n : nat) (m : Matrix) : Prop :=
  length m = n /\ Forall (fun row => length row = n) m.

(** Writes keep the dimensions: the row lengths of a matrix. *)
Definition dims (m : Matrix) : list nat := length <$> m.

(** [arr.filter((a, idx) => f(idx, a))], indices counted from [k]. *)
Fixpoint filterFrom {A : Type} (f : nat -> A -> bool) (k : nat) (l : list A) : list A :=
  match l with
  | [] => []
  | a :: l' => if f k a then a :: filterFrom f (S k) l' else filterFrom f (S k) l'
  end.

(** [arr.includes(idx)] *)
Definition includes (arr : list nat) (idx : nat) : bool := existsb (Nat.eqb idx) arr.

(** State updates issued by a handler, in the order of the setter calls. *)
Definition andThen {St : Type} (u1 u2 : St -> St) : St -> St := fun st => u2 (u1 st).
Infix ">>>" := andThen (at level 60, right associativity).

Definition skip {St : Type} : St -> St := fun st => st.

(** A handler called while the render that created it is still the current
    one: it reads [s] and its updates apply to [s].  (A handler kept by a
    timer or listener over later renders reads the old [s] instead.) *)
Definition invoke {St : Type} (handler : St -> St -> St) (s : St) : St := handler s s.

(** A key press handled in the render [s] that registered the handler:
    the state after it, [None] when the handler does not return. *)
Definition press {St : Type} (handle : St -> option (St -> St)) (s : St) : option St :=
  (fun u => u s) <$> handle s.

(** [type Stage = "welcome" | "game" | "results"] *)
Inductive Stage : Type := welcome | game | results.

Definition isGame (st : Stage) : bool :=
  match st with game => true | _ => false end.

(** The value of one [Math.floor(Math.random() * SHAPES.length)]: an index
    into the seven shapes. *)
Inductive Tetromino : Type := TI | TO | TT | TS | TZ | TJ | TL.

Definition index (t : Tetromino) : nat :=
  match t with TI => 0 | TO => 1 | TT => 2 | TS => 3 | TZ => 4 | TJ => 5 | TL => 6 end.

(** ** The loops both files share

    [checkCollision], the write loop of [lockPiece] and the descent loop of
    [hardDrop] have the same text in both files up to the names of the
    constants ([ROWS]/[COLS] against [BOARD_HEIGHT]/[BOARD_WIDTH]) and the
    value written by the lock ([type] against [cell]). *)
Section Grid.
Variables ROWS COLS : Z.

(** [board[boardY][boardX] !== 0], reached only with
    [0 <= boardY < ROWS] and [0 <= boardX < COLS].  A missing cell is
    [undefined], which is [!== 0]; a missing row is a TypeError in the
    source, which no board of [ROWS] rows can raise. *)
Definition occupied (board : Matrix) (boardY boardX : Z) : bool :=
  match get board (Z.to_nat boardY) (Z.to_nat boardX) with
  | Some v => negb (v =? EMPTY_CELL)%Z
  | None => true
  end.

(** The body of the inner loop of [checkCollision] at shape cell [(i, j)]:
<<
  if (shape[i][j] === 0) continue;
  const boardX = x + j;  const boardY = y + i;
  if (boardX < 0 || boardX >= COLS || boardY >= ROWS ||
      (boardY >= 0 && board[boardY][boardX] !== 0)) return true;
>> *)
Definition cellBlocked (board : Matrix) (x y : Z) (i j : nat) (v : Z) : bool :=
  if (v =? EMPTY_CELL)%Z then false
  else
    let boardX := (x + Z.of_nat j)%Z in
    let boardY := (y + Z.of_nat i)%Z in
    (boardX <? 0)%Z || (COLS <=? boardX)%Z || (ROWS <=? boardY)%Z
    || ((0 <=? boardY)%Z && occupied board boardY boardX).

Definition collides (board shape : Matrix) (x y : Z) : bool :=
  anyFrom (fun i row => anyFrom (fun j v => cellBlocked board x y i j v) 0 row) 0 shape.

(** The body of the inner loop of [lockPiece] at shape cell [(i, j)]:
<<
  if (shape[i][j] === 0) continue;
  const boardX = x + j;  const boardY = y + i;
  if (boardY >= 0 && boardY < ROWS && boardX >= 0 && boardX < COLS)
    newBoard[boardY][boardX] = type;      // part_000 writes [cell]
>> *)
Definition lockCell (value : Z -> Z) (x y : Z) (i j : nat) (v : Z) (newBoard : Matrix) : Matrix :=
  if (v =? EMPTY_CELL)%Z then newBoard
  else
    let boardX := (x + Z.of_nat j)%Z in
    let boardY := (y + Z.of_nat i)%Z in
    if (0 <=? boardY)%Z && (boardY <? ROWS)%Z && (0 <=? boardX)%Z && (boardX <? COLS)%Z
    then set2 newBoard (Z.to_nat boardY) (Z.to_nat boardX) (value v)
    else newBoard.

(** [newBoard = board.map(row => row.slice())] followed by the two loops. *)
Definition lockInto (value : Z -> Z) (board shape : Matrix) (x y : Z) : Matrix :=
  forEachFrom
    (fun i row newBoard => forEachFrom (fun j v nb => lockCell value x y i j v nb) 0 row newBoard)
    0 shape board.

(** The descent loop of [hardDrop] / [dropPiece]:
<<
  let newY = currentPiece.y;
  while (!checkCollision(shape, x, newY + 1)) newY++;
>>
    [None] when [fuel] iterations were not enough to leave the loop. *)
Fixpoint dropLoop (fuel : nat) (board shape : Matrix) (x newY : Z) : option Z :=
  match fuel with
  | O => None
  | S fuel' =>
      if collides board shape x (newY + 1)
      then Some newY
      else dropLoop fuel' board shape x (newY + 1)%Z
  end.

(** A board of [ROWS] rows of [COLS] cells. *)
Definition wfBoard (board : Matrix) : Prop :=
  dims board = replicate (Z.to_nat ROWS) (Z.to_nat COLS).

(** The shape cell that lands on board cell [(r, c)] when the shape is
    anchored at [(x, y)], if it is a nonzero one. *)
Definition landing (shape : Matrix) (x y : Z) (r c : nat) : option Z :=
  let i := (Z.of_nat r - y)%Z in
  let j := (Z.of_nat c - x)%Z in
  if (0 <=? i)%Z && (0 <=? j)%Z
  then match get shape (Z.to_nat i) (Z.to_nat j) with
       | Some v => if (v =? EMPTY_CELL)%Z then None else Some v
       | None => None
       end
  else None.
End Grid.

(** What the write loop of [lockPiece] does, cell by cell. *)
Section LockSpec.
Variables ROWS COLS : Z.
Variable value : Z -> Z.
Variables x y : Z.

(** Board cell [(r, c)] passes the guard of the write. *)
Definition inBoard (r c : nat) : Prop :=
  (Z.of_nat r < ROWS)%Z /\ (Z.of_nat c < COLS)%Z.

(** The nonzero cell of [row], read from column [k] on, above column [c]. *)
Definition hitRow (row : list Z) (k c : nat) : option Z :=
  let j := (Z.of_nat c - x - Z.of_nat k)%Z in
  if (0 <=? j)%Z
  then match row !! Z.to_nat j with
       | Some v => if (v =? EMPTY_CELL)%Z then None else Some v
       | None => None
       end
  else None.

Definition hitShape (rows : Matrix) (k r c : nat) : option Z :=
  let i := (Z.of_nat r - y - Z.of_nat k)%Z in
  if (0 <=? i)%Z
  then match rows !! Z.to_nat i with
       | Some row => hitRow row 0 c
       | None => None
       end
  else None.

Definition written (hit : option Z) (old : option Z) : option Z :=
  match hit with
  | Some v => const (value v) <$> old
  | None => old
  end.

End LockSpec.

(** [row.every(cell => cell !== 0)] *)
Definition isFull (row : list Z) : bool := forallb (fun cell => negb (cell =? EMPTY_CELL)%Z) row.

(** [row.some(cell => cell === 0)] *)
Definition hasEmpty (row : list Z) : bool := existsb (fun cell => (cell =? EMPTY_CELL)%Z) row.

(** [row.some(cell => cell !== 0)] *)
Definition hasBlock (row : list Z) : bool := existsb (fun cell => negb (cell =? EMPTY_CELL)%Z) row.

(** The line clear in the words of the specification: every full row
    removed, as many all-empty rows put on top, the other rows in order. *)
Definition specClear (cols : nat) (board : Matrix) : Matrix :=
  zeros (length (List.filter isFull board)) cols ++ List.filter (fun row => negb (isFull row)) board.

(** ** src/mini-app/app/page.tsx *)
Module Page.
Local Open Scope Z_scope.

Definition ROWS : Z := 20.
Definition COLS : Z := 10.

Definition SHAPES : list Matrix :=
  [ (* I *) [[0;0;0;0]; [1;1;1;1]; [0;0;0;0]; [0;0;0;0]];
    (* O *) [[0;0;0;0]; [0;2;2;0]; [0;2;2;0]; [0;0;0;0]];
    (* T *) [[0;0;0;0]; [3;3;3;0]; [0;3;0;0]; [0;0;0;0]];
    (* S *) [[0;0;0;0]; [0;4;4;0]; [4;4;0;0]; [0;0;0;0]];
    (* Z *) [[0;0;0;0]; [5;5;0;0]; [0;5;5;0]; [0;0;0;0]];
    (* J *) [[0;0;0;0]; [6;6;6;0]; [6;0;0;0]; [0;0;0;0]];
    (* L *) [[0;0;0;0]; [7;7;7;0]; [0;0;7;0]; [0;0;0;0]] ]%Z.

Record Piece : Type := mkPiece { shape : Matrix; type : Z; x : Z; y : Z }.

Record Next : Type := mkNext { nextShape : Matrix; nextType : Z }.

(** The [useState] cells of [Home]. *)
Record State : Type := mkState {
  stage : Stage;
  board : Matrix;
  currentPiece : option Piece;
  nextPiece : option Next;
  score : Z;
  linesCleared : Z;
  level : Z;
  dropInterval : Z;
  isPaused : bool;
  highScore : Z
}.

Definition setStage (v : Stage) (st : State) : State :=
  mkState v (board st) (currentPiece st) (nextPiece st) (score st) (linesCleared st)
    (level st) (dropInterval st) (isPaused st) (highScore st).
Definition setBoard (v : Matrix) (st : State) : State :=
  mkState (stage st) v (currentPiece st) (nextPiece st) (score st) (linesCleared st)
    (level st) (dropInterval st) (isPaused st) (highScore st).
Definition setCurrentPiece (v : option Piece) (st : State) : State :=
  mkState (stage st) (board st) v (nextPiece st) (score st) (linesCleared st)
    (level st) (dropInterval st) (isPaused st) (highScore st).
Definition setNextPiece (v : option Next) (st : State) : State :=
  mkState (stage st) (board st) (currentPiece st) v (score st) (linesCleared st)
    (level st) (dropInterval st) (isPaused st) (highScore st).
(** [setScore(f)] with an updater function; [setScore(v)] is [setScore (fun _ => v)]. *)
Definition setScore (f : Z -> Z) (st : State) : State :=
  mkState (stage st) (board st) (currentPiece st) (nextPiece st) (f (score st)) (linesCleared st)
    (level st) (dropInterval st) (isPaused st) (highScore st).
Definition setLinesCleared (f : Z -> Z) (st : State) : State :=
  mkState (stage st) (board st) (currentPiece st) (nextPiece st) (score st) (f (linesCleared st))
    (level st) (dropInterval st) (isPaused st) (highScore st).
Definition setLevel (f : Z -> Z) (st : State) : State :=
  mkState (stage st) (board st) (currentPiece st) (nextPiece st) (score st) (linesCleared st)
    (f (level st)) (dropInterval st) (isPaused st) (highScore st).
Definition setDropInterval (f : Z -> Z) (st : State) : State :=
  mkState (stage st) (board st) (currentPiece st) (nextPiece st) (score st) (linesCleared st)
    (level st) (f (dropInterval st)) (isPaused st) (highScore st).
Definition setIsPaused (f : bool -> bool) (st : State) : State :=
  mkState (stage st) (board st) (currentPiece st) (nextPiece st) (score st) (linesCleared st)
    (level st) (dropInterval st) (f (isPaused st)) (highScore st).
Definition setHighScore (v : Z) (st : State) : State :=
  mkState (stage st) (board st) (currentPiece st) (nextPiece st) (score st) (linesCleared st)
    (level st) (dropInterval st) (isPaused st) v.

(** [SHAPES[type - 1]] for a drawn [type - 1]. *)
Definition shapeOf (t : Tetromino) : Matrix := nth (index t) SHAPES [].

Definition typeOf (t : Tetromino) : Z := Z.of_nat (index t) + 1.

(** [spawnPiece] (lines 252-268); [t] and [nt] are the two random draws.
<<
  const type = Math.floor(Math.random() * SHAPES.length) + 1;
  setCurrentPiece({ shape: SHAPES[type - 1], type, x: Math.floor(COLS / 2) - 2, y: 0 });
  const nextType = Math.floor(Math.random() * SHAPES.length) + 1;
  setNextPiece({ shape: SHAPES[nextType - 1], type: nextType });
>> *)
Definition spawnPiece (t nt : Tetromino) : State -> State :=
  setCurrentPiece (Some (mkPiece (shapeOf t) (typeOf t) (COLS / 2 - 2) 0))
  >>> setNextPiece (Some (mkNext (shapeOf nt) (typeOf nt))).

(** [startGame] (lines 239-250) *)
Definition startGame (t nt : Tetromino) (s : State) : State -> State :=
  setBoard (zeros (Z.to_nat ROWS) (Z.to_nat COLS))
  >>> setScore (fun _ => 0)
  >>> setLinesCleared (fun _ => 0)
  >>> setLevel (fun _ => 1)
  >>> setDropInterval (fun _ => 1000)
  >>> setIsPaused (fun _ => false)
  >>> setCurrentPiece None
  >>> setNextPiece None
  >>> spawnPiece t nt
  >>> setStage game.

(** [checkCollision(piece, x, y)] (lines 319-341) reads [piece.shape] only. *)
Definition checkCollision (board : Matrix) (piece : Piece) (x y : Z) : bool :=
  collides ROWS COLS board (shape piece) x y.

(** [rotatePiece] (lines 281-288) *)
Definition rotatePiece (s : State) : State -> State :=
  match currentPiece s with
  | None => skip
  | Some p =>
      let rotated := rotateMatrix (shape p) in
      let newPiece := mkPiece rotated (type p) (x p) (y p) in
      if negb (checkCollision (board s) newPiece (x p) (y p))
      then setCurrentPiece (Some newPiece)
      else skip
  end.

(** [movePiece(dx, dy)] (lines 290-297) *)
Definition movePiece (dx dy : Z) (s : State) : State -> State :=
  match currentPiece s with
  | None => skip
  | Some p =>
      let newX := x p + dx in
      let newY := y p + dy in
      if negb (checkCollision (board s) p newX newY)
      then setCurrentPiece (Some (mkPiece (shape p) (type p) newX newY))
      else skip
  end.

(** The row indices [i < ROWS] with [newBoard[i].every(cell => cell !== 0)].
    On a board with fewer than [ROWS] rows the source raises a TypeError at
    the first missing row; every board the component holds has [ROWS] rows. *)
Definition fullRowsOf (newBoard : Matrix) : list nat :=
  List.filter
    (fun i => match newBoard !! i with Some row => isFull row | None => false end)
    (seq 0%nat (Z.to_nat ROWS)).

(** [clearLines(newBoard)] (lines 362-382), in the closure of render [s]:
<<
  if (fullRows.length === 0) return;
  const cleared = fullRows.length;
  const newRows = Array.from({ length: cleared }, () => Array(COLS).fill(0));
  const remaining = newBoard.filter((_, idx) => !fullRows.includes(idx));
  setBoard([...newRows, ...remaining]);
  const points = cleared * 10 * level;
  setScore((s) => s + points);
  setLinesCleared((l) => l + cleared);
  if ((linesCleared + cleared) % 10 === 0) {
    setLevel((lvl) => lvl + 1);
    setDropInterval((interval) => Math.max(200, interval - 100));
  }
>> *)
Definition clearLines (s : State) (newBoard : Matrix) : State -> State :=
  let fullRows := fullRowsOf newBoard in
  if (length fullRows =? 0)%nat then skip
  else
    let cleared := Z.of_nat (length fullRows) in
    let newRows := zeros (length fullRows) (Z.to_nat COLS) in
    let remaining := filterFrom (fun idx _ => negb (includes fullRows idx)) 0%nat newBoard in
    let updatedBoard := newRows ++ remaining in
    let points := cleared * 10 * level s in
    setBoard updatedBoard
    >>> setScore (fun sc => sc + points)
    >>> setLinesCleared (fun l => l + cleared)
    >>> (if (Z.rem (linesCleared s + cleared) 10 =? 0)%Z
         then setLevel (fun lvl => lvl + 1)
              >>> setDropInterval (fun interval => Z.max 200 (interval - 100))
         else skip).

(** The board built by the write loop of [lockPiece]. *)
Definition lockedBoard (s : State) (p : Piece) : Matrix :=
  lockInto ROWS COLS (fun _ => type p) (board s) (shape p) (x p) (y p).

(** [lockPiece] (lines 343-360): write loop, [setBoard(newBoard)],
    [clearLines(newBoard)], [spawnPiece()]. *)
Definition lockPiece (s : State) (t nt : Tetromino) : State -> State :=
  match currentPiece s with
  | None => skip
  | Some p =>
      let newBoard := lockedBoard s p in
      setBoard newBoard >>> clearLines s newBoard >>> spawnPiece t nt
  end.

(** [dropPiece] (lines 299-307): the timer tick and the soft drop. *)
Definition dropPiece (t nt : Tetromino) (s : State) : State -> State :=
  match currentPiece s with
  | None => skip
  | Some p =>
      let newY := y p + 1 in
      if negb (checkCollision (board s) p (x p) newY)
      then setCurrentPiece (Some (mkPiece (shape p) (type p) (x p) newY))
      else lockPiece s t nt
  end.

(** [hardDrop] (lines 309-317).  [lockPiece] runs in the same closure, so
    it reads the [currentPiece] of the render, not the one just set. *)
Definition hardDrop (fuel : nat) (t nt : Tetromino) (s : State) : option (State -> State) :=
  match currentPiece s with
  | None => Some skip
  | Some p =>
      match dropLoop ROWS COLS fuel (board s) (shape p) (x p) (y p) with
      | None => None
      | Some newY =>
          Some (setCurrentPiece (Some (mkPiece (shape p) (type p) (x p) newY))
                >>> lockPiece s t nt)
      end
  end.

(** The game-over effect (lines 229-236):
<<
  if (stage !== "game") return;
  if (board[0].some((cell) => cell !== 0)) {
    setStage("results");
    if (score > highScore) setHighScore(score);
  }
>>
    [board[0]] is row 0 of a board that always has [ROWS] rows. *)
Definition gameOverEffect (s : State) : State -> State :=
  if negb (isGame (stage s)) then skip
  else if hasBlock (nth 0%nat (board s) [])
       then setStage results
            >>> (if score s >? highScore s then setHighScore (score s) else skip)
       else skip.

(** The effect keyed on [[highScore]] (lines 139-141) writes the high
    score to the local storage when a commit changed it: the
    new-high-score signal to the persistence. *)
Definition highScoreSaved (s s' : State) : bool := negb (highScore s' =? highScore s)%Z.

(** The pause button (lines 470-476): [onClick={() => setIsPaused((p) => !p)}]. *)
Definition pauseButton (s : State) : State -> State := setIsPaused negb.

(** [handleKeyDown] (lines 159-189), [key] being [e.key]:
<<
  if (stage !== "game") return;
  if (isPaused) return;
  switch (e.key) {
    case "ArrowLeft":  movePiece(-1, 0); break;
    case "ArrowRight": movePiece(1, 0); break;
    case "ArrowDown":  dropPiece(); break;
    case "ArrowUp":    rotatePiece(); break;
    case " ":          hardDrop(); break;
    case "p": case "P": setIsPaused((p) => !p); break;
  }
>>
    [None] only when the loop of [hardDrop] ran out of [fuel]. *)
Definition handleKeyDown (fuel : nat) (t nt : Tetromino) (key : string) (s : State)
  : option (State -> State) :=
  if negb (isGame (stage s)) then Some skip
  else if isPaused s then Some skip
  else if decide (key = "ArrowLeft") then Some (movePiece (-1) 0 s)
  else if decide (key = "ArrowRight") then Some (movePiece 1 0 s)
  else if decide (key = "ArrowDown") then Some (dropPiece t nt s)
  else if decide (key = "ArrowUp") then Some (rotatePiece s)
  else if decide (key = " ") then hardDrop fuel t nt s
  else if decide (key = "p") then Some (setIsPaused negb)
  else if decide (key = "P") then Some (setIsPaused negb)
  else Some skip.

End Page.

(** ** src/unnamed/part_000 *)
Module Part0.
Local Open Scope Z_scope.

Definition BOARD_WIDTH : Z := 10.
Definition BOARD_HEIGHT : Z := 20.

Definition SHAPES : list Matrix :=
  [ (* I *) [[0;0;0;0]; [1;1;1;1]; [0;0;0;0]; [0;0;0;0]];
    (* O *) [[2;2]; [2;2]];
    (* T *) [[0;3;0]; [3;3;3]; [0;0;0]];
    (* S *) [[0;4;4]; [4;4;0]; [0;0;0]];
    (* Z *) [[5;5;0]; [0;5;5]; [0;0;0]];
    (* J *) [[6;0;0]; [6;6;6]; [0;0;0]];
    (* L *) [[0;0;7]; [7;7;7]; [0;0;0]] ]%Z.

Record Piece : Type := mkPiece { shape : Matrix; x : Z; y : Z }.

(** The [useState] cells of [Page]. *)
Record State : Type := mkState {
  stage : Stage;
  board : Matrix;
  currentPiece : option Piece;
  nextPiece : option Matrix;
  score : Z;
  highScore : Z;
  paused : bool
}.

Definition setStage (v : Stage) (st : State) : State :=
  mkState v (board st) (currentPiece st) (nextPiece st) (score st) (highScore st) (paused st).
Definition setBoard (v : Matrix) (st : State) : State :=
  mkState (stage st) v (currentPiece st) (nextPiece st) (score st) (highScore st) (paused st).
Definition setCurrentPiece (v : option Piece) (st : State) : State :=
  mkState (stage st) (board st) v (nextPiece st) (score st) (highScore st) (paused st).
Definition setNextPiece (v : option Matrix) (st : State) : State :=
  mkState (stage st) (board st) (currentPiece st) v (score st) (highScore st) (paused st).
Definition setScore (f : Z -> Z) (st : State) : State :=
  mkState (stage st) (board st) (currentPiece st) (nextPiece st) (f (score st)) (highScore st) (paused st).
Definition setHighScore (v : Z) (st : State) : State :=
  mkState (stage st) (board st) (currentPiece st) (nextPiece st) (score st) v (paused st).
Definition setPaused (f : bool -> bool) (st : State) : State :=
  mkState (stage st) (board st) (currentPiece st) (nextPiece st) (score st) (highScore st) (f (paused st)).

Definition shapeOf (t : Tetromino) : Matrix := nth (index t) SHAPES [].

(** [spawnPiece] (lines 88-95); [t] and [nt] are the two random draws.
<<
  const shape = SHAPES[Math.floor(Math.random() * SHAPES.length)];
  const x = Math.floor((BOARD_WIDTH - shape[0].length) / 2);
  const y = -shape.length; // start above the board
  setCurrentPiece({ shape, x, y });
  setNextPiece(SHAPES[Math.floor(Math.random() * SHAPES.length)]);
>> *)
Definition spawnPiece (t nt : Tetromino) : State -> State :=
  let shape := shapeOf t in
  let x := (BOARD_WIDTH - Z.of_nat (length (nth 0%nat shape []))) / 2 in
  let y := - Z.of_nat (length shape) in
  setCurrentPiece (Some (mkPiece shape x y)) >>> setNextPiece (Some (shapeOf nt)).

(** [startGame] (lines 97-104) *)
Definition startGame (t nt : Tetromino) (s : State) : State -> State :=
  setBoard (zeros (Z.to_nat BOARD_HEIGHT) (Z.to_nat BOARD_WIDTH))
  >>> setScore (fun _ => 0)
  >>> setPaused (fun _ => false)
  >>> spawnPiece t nt
  >>> setStage game.

(** [checkCollision(shape, x, y)] (lines 146-158) *)
Definition checkCollision (board shape : Matrix) (x y : Z) : bool :=
  collides BOARD_HEIGHT BOARD_WIDTH board shape x y.

(** [clearLines(boardToCheck)] (lines 179-185): only the number is
    returned, [finalBoard] is dropped.
<<
  const newBoard = boardToCheck.filter(row => row.some(cell => cell === EMPTY_CELL));
  const linesCleared = BOARD_HEIGHT - newBoard.length;
  const emptyRows = Array.from({ length: linesCleared }, () => Array(BOARD_WIDTH).fill(EMPTY_CELL));
  const finalBoard = [...emptyRows, ...newBoard];
  return linesCleared * 100;
>> *)
Definition clearLines (boardToCheck : Matrix) : Z :=
  let newBoard := List.filter hasEmpty boardToCheck in
  let linesCleared := BOARD_HEIGHT - Z.of_nat (length newBoard) in
  let emptyRows := zeros (Z.to_nat linesCleared) (Z.to_nat BOARD_WIDTH) in
  let finalBoard := emptyRows ++ newBoard in
  linesCleared * 100.

(** The board built by the write loop of [lockPiece]. *)
Definition lockedBoard (s : State) (p : Piece) : Matrix :=
  lockInto BOARD_HEIGHT BOARD_WIDTH (fun cell => cell) (board s) (shape p) (x p) (y p).

(** [lockPiece] (lines 160-177):
<<
  const cleared = clearLines(newBoard);
  setBoard(newBoard);
  setScore(prev => prev + cleared);
  spawnPiece();
>> *)
Definition lockPiece (s : State) (t nt : Tetromino) : State -> State :=
  match currentPiece s with
  | None => skip
  | Some p =>
      let newBoard := lockedBoard s p in
      let cleared := clearLines newBoard in
      setBoard newBoard >>> setScore (fun prev => prev + cleared) >>> spawnPiece t nt
  end.

(** [rotatePiece] (lines 106-112) *)
Definition rotatePiece (s : State) : State -> State :=
  match currentPiece s with
  | None => skip
  | Some p =>
      let rotated := rotateMatrix (shape p) in
      if negb (checkCollision (board s) rotated (x p) (y p))
      then setCurrentPiece (Some (mkPiece rotated (x p) (y p)))
      else skip
  end.

(** [movePiece(dx, dy)] (lines 114-124); [movePiece(0, 1)] is the tick and
    the soft drop. *)
Definition movePiece (dx dy : Z) (t nt : Tetromino) (s : State) : State -> State :=
  match currentPiece s with
  | None => skip
  | Some p =>
      let newX := x p + dx in
      let newY := y p + dy in
      if negb (checkCollision (board s) (shape p) newX newY)
      then setCurrentPiece (Some (mkPiece (shape p) newX newY))
      else if dy =? 1 then lockPiece s t nt
      else skip
  end.

(** [hardDrop] (lines 136-144), and [dropPiece] (lines 126-134) with the
    same text.  [lockPiece] reads the [currentPiece] of the render. *)
Definition hardDrop (fuel : nat) (t nt : Tetromino) (s : State) : option (State -> State) :=
  match currentPiece s with
  | None => Some skip
  | Some p =>
      match dropLoop BOARD_HEIGHT BOARD_WIDTH fuel (board s) (shape p) (x p) (y p) with
      | None => None
      | Some newY =>
          Some (setCurrentPiece (Some (mkPiece (shape p) (x p) newY))
                >>> lockPiece s t nt)
      end
  end.

(** The game-over effect (lines 275-281), keyed on [[currentPiece]]:
<<
  if (!currentPiece) return;
  if (checkCollision(currentPiece.shape, currentPiece.x, currentPiece.y)) {
    setStage("results");
    if (score > highScore) setHighScore(score);
  }
>> *)
Definition gameOverEffect (s : State) : State -> State :=
  match currentPiece s with
  | None => skip
  | Some p =>
      if checkCollision (board s) (shape p) (x p) (y p)
      then setStage results
           >>> (if score s >? highScore s then setHighScore (score s) else skip)
      else skip
  end.

(** The effect keyed on [[highScore]] (lines 259-261). *)
Definition highScoreSaved (s s' : State) : bool := negb (highScore s' =? highScore s)%Z.

(** [handleKeyDown] (lines 285-314), [key] being [e.key]:
<<
  if (stage !== "game") return;
  switch (e.key) {
    case "ArrowLeft":  movePiece(-1, 0); break;
    case "ArrowRight": movePiece(1, 0); break;
    case "ArrowDown":  movePiece(0, 1); break;
    case "ArrowUp":    rotatePiece(); break;
    case " ":          hardDrop(); break;
    case "p": case "P": setPaused(prev => !prev); break;
  }
>> *)
Definition handleKeyDown (fuel : nat) (t nt : Tetromino) (key : string) (s : State)
  : option (State -> State) :=
  if negb (isGame (stage s)) then Some skip
  else if decide (key = "ArrowLeft") then Some (movePiece (-1) 0 t nt s)
  else if decide (key = "ArrowRight") then Some (movePiece 1 0 t nt s)
  else if decide (key = "ArrowDown") then Some (movePiece 0 1 t nt s)
  else if decide (key = "ArrowUp") then Some (rotatePiece s)
  else if decide (key = " ") then hardDrop fuel t nt s
  else if decide (key = "p") then Some (setPaused negb)
  else if decide (key = "P") then Some (setPaused negb)
  else Some skip.

(** The body of the inner loop of [renderBoard] (lines 200-208):
<<
  if (cell === EMPTY_CELL) return;
  const boardX = currentPiece.x + c;  const boardY = currentPiece.y + r;
  if (boardY < 0 || boardY >= BOARD_HEIGHT || boardX < 0 || boardX >= BOARD_WIDTH) return;
  displayBoard[boardY][boardX] = cell;
>> *)
Definition displayCell (x y : Z) (r c : nat) (cell : Z) (displayBoard : Matrix) : Matrix :=
  if cell =? EMPTY_CELL then displayBoard
  else
    let boardX := x + Z.of_nat c in
    let boardY := y + Z.of_nat r in
    if (boardY <? 0) || (BOARD_HEIGHT <=? boardY) || (boardX <? 0) || (BOARD_WIDTH <=? boardX)
    then displayBoard
    else set2 displayBoard (Z.to_nat boardY) (Z.to_nat boardX) cell.

(** The [displayBoard] of [renderBoard] (lines 197-209): a copy of the
    board with the current piece drawn on it. *)
Definition displayBoard (s : State) : Matrix :=
  match currentPiece s with
  | None => board s
  | Some p =>
      forEachFrom
        (fun r row db => forEachFrom (fun c cell db => displayCell (x p) (y p) r c cell db) 0%nat row db)
        0%nat (shape p) (board s)
  end.

(** [displayBoard.flat()], the cells [renderBoard] maps to grid items. *)
Definition renderedCells (s : State) : list Z := concat (displayBoard s).

End Part0.

(** ** Invariants of the two components *)

(** What page.tsx keeps from [startGame] on: a board of 20 rows of 10 cells
    none of which is full, a level of at least 1, a drop interval between
    200 and 1000, non-negative lines and score, and a current piece with a
    4 x 4 shape at a row [y >= 0]. *)
Definition Page_inv (s : Page.State) : Prop :=
  wfBoard Page.ROWS Page.COLS (Page.board s) /\
  Forall (fun row => isFull row = false) (Page.board s) /\
  (1 <= Page.level s)%Z /\
  (200 <= Page.dropInterval s <= 1000)%Z /\
  (0 <= Page.linesCleared s)%Z /\
  (0 <= Page.score s)%Z /\
  (forall p, Page.currentPiece s = Some p -> square 4 (Page.shape p) /\ (0 <= Page.y p)%Z).

(** The current piece of part_000, if any, collides nowhere. *)
Definition Part0_pieceFree (s : Part0.State) : Prop :=
  forall p, Part0.currentPiece s = Some p ->
    Part0.checkCollision (Part0.board s) (Part0.shape p) (Part0.x p) (Part0.y p) = false.

(** What part_000 keeps from [startGame] on: a board of 20 rows of 10
    cells, a non-negative score that is a multiple of 100, and a current
    piece that collides nowhere. *)
Definition Part0_inv (s : Part0.State) : Prop :=
  wfBoard Part0.BOARD_HEIGHT Part0.BOARD_WIDTH (Part0.board s) /\
  (0 <= Part0.score s)%Z /\
  (exists q, Part0.score s = (100 * q)%Z) /\
  Part0_pieceFree s.

(** ** States used as concrete inputs *)

Definition emptyBoard : Matrix := zeros 20 10.

(** A board whose two bottom rows hold [v] in their first [n] columns. *)
Definition bottomRows (n : nat) (v : Z) : Matrix :=
  replicate 18 (replicate 10 EMPTY_CELL)
  ++ replicate 2 (replicate n v ++ replicate (10 - n) EMPTY_CELL).

Definition pageInit : Page.State :=
  Page.mkState welcome emptyBoard None None 0 0 1 1000 false 0.

(** page.tsx after [startGame] drew an O and then an I, and 17 ticks: the O
    piece stands on the floor, the I piece is shown as next. *)
Definition pageOnFloor : Page.State :=
  Nat.iter 17 (invoke (Page.dropPiece TT TS)) (invoke (Page.startGame TO TI) pageInit).

(** page.tsx with 9 lines cleared at level 1: an O piece above the two free
    columns of two rows that are otherwise filled. *)
Definition pageNineLines : Page.State :=
  Page.mkState game (bottomRows 8 3)
    (Some (Page.mkPiece (Page.shapeOf TO) 2 7 17))
    (Some (Page.mkNext (Page.shapeOf TI) 1)) 90 9 1 1000 false 0.

(** page.tsx with a block in row 0 and a score above the high score. *)
Definition pageToppedOut : Page.State :=
  Page.mkState game (<[0%nat := replicate 10 2%Z]> emptyBoard)
    (Some (Page.mkPiece (Page.shapeOf TT) 3 3 0))
    (Some (Page.mkNext (Page.shapeOf TI) 1)) 50 4 1 1000 false 20.

Definition part0Init : Part0.State :=
  Part0.mkState welcome emptyBoard None None 0 0 false.

(** part_000 after [startGame] drew an O and then an I, and 20 presses of
    ArrowDown. *)
Definition part0OnFloor : Part0.State :=
  Nat.iter 20 (invoke (Part0.movePiece 0 1 TT TS)) (invoke (Part0.startGame TO TI) part0Init).

(** part_000 with a flat I piece above the four free columns of the bottom
    row. *)
Definition part0RowReady : Part0.State :=
  Part0.mkState game (bottomRows 6 2)
    (Some (Part0.mkPiece (Part0.shapeOf TI) 6 18))
    (Some (Part0.shapeOf TO)) 0 0 false.

(** part_000 with the current piece inside a filled part of the board. *)
Definition part0Stuck : Part0.State :=
  Part0.mkState game (bottomRows 6 2)
    (Some (Part0.mkPiece (Part0.shapeOf TO) 4 18))
    (Some (Part0.shapeOf TO)) 50 20 false.

(** page.tsx and part_000 right after [startGame] drew an O and then an I. *)
Definition pageStarted : Page.State := invoke (Page.startGame TO TI) pageInit.

Definition part0Started : Part0.State := invoke (Part0.startGame TO TI) part0Init.

(** page.tsx and part_000 with a freshly spawned T piece on the empty board. *)
Definition pageWithT : Page.State :=
  Page.mkState game emptyBoard
    (Some (Page.mkPiece (Page.shapeOf TT) 3 3 0))
    (Some (Page.mkNext (Page.shapeOf TI) 1)) 0 0 1 1000 false 0.

Definition part0WithT : Part0.State :=
  Part0.mkState game emptyBoard
    (Some (Part0.mkPiece (Part0.shapeOf TT) 3 (-3)))
    (Some (Part0.shapeOf TI)) 0 0 false.

(** ** Facts about matrices *)

Lemma get_set2 (m : Matrix) (a b i j : nat) (v : Z) :
  get (set2 m a b v) i j =
  if decide (i = a /\ j = b) then const v <$> get m i j else get m i j.
Proof.
  unfold get, set2.
  destruct (decide (i = a)) as [->|Hia].
  - rewrite list_lookup_alter_eq.
    destruct (m !! a) as [row|] eqn:Hrow; simpl.
    + destruct (decide (j = b)) as [->|Hjb].
      * rewrite decide_True by done.
        destruct (decide (b < length row)).
        -- rewrite list_lookup_insert_eq by done.
           destruct (lookup_lt_is_Some_2 row b) as [w Hw]; [done|].
           by rewrite Hw.
        -- rewrite list_insert_ge by lia.
           rewrite (lookup_ge_None_2 row b) by lia. done.
      * rewrite decide_False by (intros [_ ?]; done).
        by rewrite list_lookup_insert_ne.
    + by case_decide.
  - rewrite list_lookup_alter_ne by done.
    rewrite decide_False by (intros [? _]; done). done.
Qed.

Lemma get_zeros (rows cols i j : nat) :
  get (zeros rows cols) i j =
  if decide (i < rows /\ j < cols) then Some EMPTY_CELL else None.
Proof.
  unfold get, zeros.
  destruct (decide (i < rows)) as [Hi|Hi].
  - rewrite lookup_replicate_2 by done. simpl.
    destruct (decide (j < cols)) as [Hj|Hj].
    + rewrite lookup_replicate_2 by done. by rewrite decide_True.
    + rewrite (proj1 (lookup_replicate_None cols EMPTY_CELL j)) by lia.
      rewrite decide_False by (intros [_ ?]; done). done.
  - rewrite (proj1 (lookup_replicate_None rows _ i)) by lia.
    rewrite decide_False by (intros [? _]; done). done.
Qed.

(** Settles a goal that compares [if decide ...] on both sides by cases.
    (The solvers it calls clear hypotheses that may be gone already.) *)
#[local] Set Warnings "-clear-no-such-hyp".
Ltac by_decide_cases :=
  repeat case_decide;
  repeat match goal with
         | |- context [get ?m ?i ?j] => destruct (get m i j)
         end;
  destruct_and?; simplify_eq/=; try done; exfalso;
  repeat match goal with
         | H : context [_ ∈ _ :: _] |- _ => setoid_rewrite elem_of_cons in H
         | H : context [_ ∈ []] |- _ => setoid_rewrite elem_of_nil in H
         | H : context [_ ∈ seq _ _] |- _ => setoid_rewrite elem_of_seq in H
         end;
  first [naive_solver | intuition lia].

(** The inner loop writes column [size - 1 - r] of the rows listed in [cs]. *)
Lemma get_rotate_cols (matrix : Matrix) (n r : nat) (cs : list nat) (result : Matrix) (i j : nat) :
  get (foldl (fun result c => set2 result c (n - 1 - r) (cell matrix r c)) result cs) i j =
  if decide (j = n - 1 - r /\ i ∈ cs) then const (cell matrix r i) <$> get result i j
  else get result i j.
Proof.
  revert result. induction cs as [|c cs IH]; intros result; simpl.
  - by_decide_cases.
  - rewrite IH, get_set2. clear IH. by_decide_cases.
Qed.

Lemma get_rotateRow (matrix : Matrix) (n r : nat) (result : Matrix) (i j : nat) :
  get (rotateRow matrix n r result) i j =
  if decide (j = n - 1 - r /\ i < n) then const (cell matrix r i) <$> get result i j
  else get result i j.
Proof.
  unfold rotateRow. rewrite get_rotate_cols. by_decide_cases.
Qed.

(** The outer loop, over the rows listed in [rs] (all below [n]). *)
Lemma get_rotate_rows (matrix : Matrix) (n : nat) (rs : list nat) (result : Matrix) (i j : nat) :
  Forall (fun r => r < n) rs ->
  get (foldl (fun result r => rotateRow matrix n r result) result rs) i j =
  if decide (j < n /\ n - 1 - j ∈ rs /\ i < n)
  then const (cell matrix (n - 1 - j) i) <$> get result i j
  else get result i j.
Proof.
  intros Hrs. revert result. induction Hrs as [|r rs Hr Hrs IH]; intros result; simpl.
  - by_decide_cases.
  - rewrite IH, get_rotateRow. clear IH.
    destruct (decide (r = n - 1 - j)) as [->|Hrj].
    + destruct (decide (j < n)); [|by_decide_cases].
      replace (n - 1 - (n - 1 - j)) with j by lia. by_decide_cases.
    + by_decide_cases.
Qed.

(** Closed form of the rotation: cell [(i, j)] of the result is cell
    [(size - 1 - j, i)] of the argument, and the result is [size × size]. *)
Lemma get_rotateMatrix (m : Matrix) (i j : nat) :
  get (rotateMatrix m) i j =
  if decide (i < length m /\ j < length m) then Some (cell m (length m - 1 - j) i) else None.
Proof.
  unfold rotateMatrix. cbv zeta.
  rewrite get_rotate_rows by (apply Forall_forall; intros r Hr%elem_of_seq; lia).
  rewrite get_zeros. by_decide_cases.
Qed.

Lemma dims_set2 (m : Matrix) (a b : nat) (v : Z) : dims (set2 m a b v) = dims m.
Proof.
  unfold dims, set2. apply list_eq; intros i. rewrite !list_lookup_fmap.
  destruct (decide (i = a)) as [->|Hne].
  - rewrite list_lookup_alter_eq. destruct (m !! a); simpl; [|done].
    by rewrite length_insert.
  - by rewrite list_lookup_alter_ne.
Qed.

Lemma dims_zeros (rows cols : nat) : dims (zeros rows cols) = replicate rows cols.
Proof. unfold dims, zeros. by rewrite fmap_replicate, length_replicate. Qed.

Lemma dims_rotateRow (matrix : Matrix) (n r : nat) (result : Matrix) :
  dims (rotateRow matrix n r result) = dims result.
Proof.
  unfold rotateRow. revert result.
  induction (seq 0 n) as [|c cs IH]; intros result; simpl; [done|].
  by rewrite IH, dims_set2.
Qed.

Lemma dims_rotateMatrix (m : Matrix) :
  dims (rotateMatrix m) = replicate (length m) (length m).
Proof.
  unfold rotateMatrix. cbv zeta. rewrite <- (dims_zeros (length m) (length m)).
  generalize (zeros (length m) (length m)) as result.
  induction (seq 0 (length m)) as [|r rs IH]; intros result; simpl; [done|].
  by rewrite IH, dims_rotateRow.
Qed.

Lemma dims_uniform (k : nat) (m : Matrix) :
  Forall (fun row => length row = k) m -> dims m = replicate (length m) k.
Proof.
  unfold dims. induction 1 as [|row m Hrow _ IH]; simpl; [done|]. by f_equal.
Qed.

Lemma square_dims (n : nat) (m : Matrix) : square n m <-> dims m = replicate n n.
Proof.
  unfold square. split.
  - intros [<- Hrows]. by apply dims_uniform.
  - unfold dims. intros Hd. split.
    + apply (f_equal length) in Hd. by rewrite length_fmap, length_replicate in Hd.
    + apply Forall_lookup. intros i row Hrow.
      assert (Hi : (length <$> m) !! i = Some (length row)) by (by rewrite list_lookup_fmap, Hrow).
      rewrite Hd in Hi. by apply lookup_replicate in Hi as [-> _].
Qed.

Lemma square_rotateMatrix (n : nat) (m : Matrix) : square n m -> square n (rotateMatrix m).
Proof.
  intros Hsq. apply square_dims. rewrite dims_rotateMatrix. by destruct Hsq as [-> _].
Qed.

(** Two matrices of the same dimensions with the same cells are equal. *)
Lemma matrix_eq (m1 m2 : Matrix) :
  dims m1 = dims m2 -> (forall i j, get m1 i j = get m2 i j) -> m1 = m2.
Proof.
  unfold dims, get. intros Hd Hget. apply list_eq; intros i.
  assert (Hi : (length <$> m1) !! i = (length <$> m2) !! i) by (by rewrite Hd).
  rewrite !list_lookup_fmap in Hi.
  destruct (m1 !! i) as [r1|] eqn:H1, (m2 !! i) as [r2|] eqn:H2; simpl in Hi; try done.
  f_equal. apply list_eq; intros j. specialize (Hget i j). by rewrite H1, H2 in Hget.
Qed.

Lemma get_square (n : nat) (m : Matrix) (i j : nat) :
  square n m -> i < n -> j < n -> get m i j = Some (cell m i j).
Proof.
  intros [Hlen Hrows] Hi Hj. unfold cell, get.
  destruct (lookup_lt_is_Some_2 m i) as [row Hrow]; [lia|]. rewrite Hrow. simpl.
  rewrite Forall_lookup in Hrows. specialize (Hrows i row Hrow).
  destruct (lookup_lt_is_Some_2 row j) as [v Hv]; [lia|]. by rewrite Hv.
Qed.

Lemma get_square_None (n : nat) (m : Matrix) (i j : nat) :
  square n m -> ~ (i < n /\ j < n) -> get m i j = None.
Proof.
  intros [Hlen Hrows] Hn. unfold get.
  destruct (m !! i) as [row|] eqn:Hrow; simpl; [|done].
  rewrite Forall_lookup in Hrows. specialize (Hrows i row Hrow).
  apply lookup_lt_Some in Hrow. apply lookup_ge_None. lia.
Qed.

(** ** Rotation (claim C6) *)

(** C6: for every square [n × n] matrix, [rotateMatrix] returns an [n × n]
    matrix in which the element that was at [(row, col)] is at
    [(col, n - 1 - row)], and four rotations in succession give back the
    original matrix, cell for cell. *)
Theorem C6_rotateMatrix_clockwise_and_four_fold (n : nat) (m : Matrix) :
  square n m ->
  square n (rotateMatrix m) /\
  (forall row col, row < n -> col < n ->
     get (rotateMatrix m) col (n - 1 - row) = get m row col) /\
  rotateMatrix (rotateMatrix (rotateMatrix (rotateMatrix m))) = m.
Proof.
  intros Hsq.
  assert (Hlen : forall k, square n k -> length k = n) by (by intros k [? _]).
  assert (Hrot : forall k i j, square n k -> i < n -> j < n ->
            cell (rotateMatrix k) i j = cell k (n - 1 - j) i).
  { intros k i j Hk Hi Hj. unfold cell at 1. rewrite get_rotateMatrix, (Hlen k Hk).
    by rewrite decide_True. }
  pose proof (square_rotateMatrix n _ Hsq) as H1.
  pose proof (square_rotateMatrix n _ H1) as H2.
  pose proof (square_rotateMatrix n _ H2) as H3.
  pose proof (square_rotateMatrix n _ H3) as H4.
  split; [done|]. split.
  - intros row col Hrow Hcol.
    rewrite get_rotateMatrix, (Hlen m Hsq), decide_True by lia.
    replace (n - 1 - (n - 1 - row)) with row by lia.
    symmetry. by apply (get_square n).
  - apply matrix_eq.
    + apply square_dims in Hsq, H4. by rewrite Hsq, H4.
    + intros i j. destruct (decide (i < n /\ j < n)) as [[Hi Hj]|Hout].
      * rewrite (get_square n _ i j H4 Hi Hj), (get_square n _ i j Hsq Hi Hj). f_equal.
        rewrite (Hrot _ i j H3), (Hrot _ (n - 1 - j) i H2),
          (Hrot _ (n - 1 - i) (n - 1 - j) H1), (Hrot _ (n - 1 - (n - 1 - j)) (n - 1 - i) Hsq) by lia.
        f_equal; lia.
      * by rewrite (get_square_None n _ i j H4), (get_square_None n _ i j Hsq).
Qed.

(** ** Facts about the shared loops *)

Lemma anyFrom_true {A : Type} (f : nat -> A -> bool) (k : nat) (l : list A) :
  anyFrom f k l = true <-> exists i a, l !! i = Some a /\ f (k + i) a = true.
Proof.
  revert k. induction l as [|a l IH]; intros k; simpl.
  - split; [done|]. by intros (i & b & Hl & _).
  - rewrite orb_true_iff, IH. split.
    + intros [Hf|(i & b & Hl & Hf)].
      * exists 0, a. by rewrite Nat.add_0_r.
      * exists (S i), b. by rewrite Nat.add_succ_r.
    + intros ([|i] & b & Hl & Hf); simpl in Hl.
      * left. rewrite Nat.add_0_r in Hf. by simplify_eq.
      * right. exists i, b. by rewrite Nat.add_succ_r in Hf.
Qed.

Lemma anyFrom_false {A : Type} (f : nat -> A -> bool) (k : nat) (l : list A) :
  anyFrom f k l = false <-> forall i a, l !! i = Some a -> f (k + i) a = false.
Proof.
  rewrite <- not_true_iff_false, anyFrom_true. split.
  - intros Hn i a Hl. apply not_true_iff_false. intros Hf. apply Hn. by exists i, a.
  - intros Hall (i & a & Hl & Hf). by rewrite (Hall i a Hl) in Hf.
Qed.

Section GridFacts.
Variables ROWS COLS : Z.

(** A placement collides exactly when some shape cell is blocked. *)
Lemma collides_true (board shape : Matrix) (x y : Z) :
  collides ROWS COLS board shape x y = true <->
  exists i j v, get shape i j = Some v /\ cellBlocked ROWS COLS board x y i j v = true.
Proof.
  unfold collides, get. rewrite anyFrom_true. split.
  - intros (i & row & Hrow & Hany). apply anyFrom_true in Hany as (j & v & Hv & Hb).
    exists i, j, v. rewrite Hrow. simpl. done.
  - intros (i & j & v & Hget & Hb).
    destruct (shape !! i) as [row|] eqn:Hrow; simpl in Hget; [|done].
    exists i, row. split; [done|]. apply anyFrom_true. by exists j, v.
Qed.

(** A nonzero shape cell at or below row [ROWS] is a collision. *)
Lemma collides_below (board shape : Matrix) (x y : Z) (i j : nat) (v : Z) :
  get shape i j = Some v -> v <> EMPTY_CELL -> (ROWS <= y + Z.of_nat i)%Z ->
  collides ROWS COLS board shape x y = true.
Proof.
  intros Hget Hv Hlow. apply collides_true. exists i, j, v. split; [done|].
  unfold cellBlocked. destruct (Z.eqb_spec v EMPTY_CELL) as [?|_]; [done|].
  cbv zeta. apply orb_true_iff. left. apply orb_true_iff. right. by apply Z.leb_le.
Qed.

(** A shape without a nonzero cell collides nowhere. *)
Lemma collides_all_zero (board shape : Matrix) (x y : Z) :
  (forall i j v, get shape i j = Some v -> v = EMPTY_CELL) ->
  collides ROWS COLS board shape x y = false.
Proof.
  intros Hz. apply not_true_iff_false. intros (i & j & v & Hget & Hb)%collides_true.
  unfold cellBlocked in Hb. rewrite (Hz i j v Hget) in Hb. done.
Qed.

(** The descent loop leaves with [newY] after at most
    [ROWS - i - y] iterations, [i] the row of a nonzero shape cell. *)
Lemma dropLoop_terminates (board shape : Matrix) (x : Z) (i j : nat) (v : Z) :
  get shape i j = Some v -> v <> EMPTY_CELL ->
  forall (n : nat) (y : Z), (ROWS - Z.of_nat i - y <= Z.of_nat n)%Z ->
    exists newY,
      dropLoop ROWS COLS (S n) board shape x y = Some newY /\
      (y <= newY)%Z /\
      collides ROWS COLS board shape x (newY + 1) = true /\
      (forall y', (y < y' <= newY)%Z -> collides ROWS COLS board shape x y' = false).
Proof.
  intros Hget Hv. induction n as [|n IH]; intros y Hn.
  - exists y. simpl.
    rewrite (collides_below board shape x (y + 1) i j v) by (done || lia).
    repeat split; [lia|]. intros y' Hy'. lia.
  - cbn [dropLoop].
    destruct (collides ROWS COLS board shape x (y + 1)) eqn:Hc.
    + exists y. repeat split; [lia|done|]. intros y' Hy'. lia.
    + destruct (IH (y + 1)%Z) as (newY & Hloop & Hle & Hstop & Hfree); [lia|].
      exists newY. repeat split; [done|lia|done|].
      intros y' Hy'. destruct (decide (y' = y + 1)%Z) as [->|Hne]; [done|].
      apply Hfree. lia.
Qed.

(** Without a nonzero cell the loop condition never fails. *)
Lemma dropLoop_all_zero (board shape : Matrix) (x y : Z) (fuel : nat) :
  (forall i j v, get shape i j = Some v -> v = EMPTY_CELL) ->
  dropLoop ROWS COLS fuel board shape x y = None.
Proof.
  intros Hz. revert y. induction fuel as [|fuel IH]; intros y; simpl; [done|].
  by rewrite collides_all_zero.
Qed.

End GridFacts.

Section LockFacts.
Variables ROWS COLS : Z.
Variable value : Z -> Z.
Variables x y : Z.

Lemma get_lockCell (i j : nat) (v : Z) (nb : Matrix) (r c : nat) :
  get (lockCell ROWS COLS value x y i j v nb) r c =
  if decide (v <> EMPTY_CELL /\ Z.of_nat r = (y + Z.of_nat i)%Z /\
             Z.of_nat c = (x + Z.of_nat j)%Z /\ inBoard ROWS COLS r c)
  then const (value v) <$> get nb r c
  else get nb r c.
Proof.
  unfold lockCell, inBoard. destruct (Z.eqb_spec v EMPTY_CELL) as [Hv|Hv].
  { rewrite decide_False; [done|]. by intros [? _]. }
  cbv zeta.
  destruct ((0 <=? y + Z.of_nat i)%Z && (y + Z.of_nat i <? ROWS)%Z
            && (0 <=? x + Z.of_nat j)%Z && (x + Z.of_nat j <? COLS)%Z) eqn:Hg.
  - rewrite !andb_true_iff in Hg. destruct Hg as [[[Hy0 Hy1] Hx0] Hx1].
    apply Z.leb_le in Hy0, Hx0. apply Z.ltb_lt in Hy1, Hx1.
    rewrite get_set2.
    destruct (decide (r = Z.to_nat (y + Z.of_nat i) /\ c = Z.to_nat (x + Z.of_nat j)))
      as [[-> ->]|Hne].
    + rewrite decide_True; [done|]. rewrite !Z2Nat.id by done. done.
    + rewrite decide_False; [done|]. intros (_ & Hr & Hc & _). apply Hne. lia.
  - rewrite decide_False; [done|]. intros (_ & Hr & Hc & Hr' & Hc').
    apply not_true_iff_false in Hg. apply Hg.
    rewrite !andb_true_iff, !Z.leb_le, !Z.ltb_lt. lia.
Qed.

Lemma hitRow_cons (v : Z) (row : list Z) (k c : nat) :
  hitRow x (v :: row) k c =
  if decide (Z.of_nat c = (x + Z.of_nat k)%Z)
  then (if (v =? EMPTY_CELL)%Z then None else Some v)
  else hitRow x row (S k) c.
Proof.
  unfold hitRow. cbv zeta. case_decide as Hc.
  - replace (Z.of_nat c - x - Z.of_nat k)%Z with 0%Z by lia. done.
  - destruct (Z.leb_spec 0 (Z.of_nat c - x - Z.of_nat k)) as [Hj|Hj].
    + assert ((0 <=? Z.of_nat c - x - Z.of_nat (S k))%Z = true) as -> by (apply Z.leb_le; lia).
      replace (Z.to_nat (Z.of_nat c - x - Z.of_nat k))
        with (S (Z.to_nat (Z.of_nat c - x - Z.of_nat (S k)))) by lia.
      done.
    + assert ((0 <=? Z.of_nat c - x - Z.of_nat (S k))%Z = false) as -> by (apply Z.leb_gt; lia).
      done.
Qed.

(** The inner loop over one shape row [i], from column [k] on. *)
Lemma get_lockRow (i : nat) (row : list Z) (k : nat) (nb : Matrix) (r c : nat) :
  get (forEachFrom (fun j v nb => lockCell ROWS COLS value x y i j v nb) k row nb) r c =
  written value (if decide (Z.of_nat r = (y + Z.of_nat i)%Z /\ inBoard ROWS COLS r c)
           then hitRow x row k c else None)
          (get nb r c).
Proof.
  revert k nb. induction row as [|v row IH]; intros k nb; simpl.
  - unfold hitRow. cbv zeta. case_decide; [|done].
    destruct (0 <=? _)%Z; [|done]. by rewrite lookup_nil.
  - rewrite IH, get_lockCell, hitRow_cons. clear IH.
    destruct (decide (Z.of_nat r = (y + Z.of_nat i)%Z /\ inBoard ROWS COLS r c)) as [[Hr Hin]|Hn].
    + destruct (decide (Z.of_nat c = (x + Z.of_nat k)%Z)) as [Hc|Hc].
      * assert (hitRow x row (S k) c = None) as ->.
        { unfold hitRow. cbv zeta.
          assert ((0 <=? Z.of_nat c - x - Z.of_nat (S k))%Z = false) as ->
              by (apply Z.leb_gt; lia). done. }
        simpl. destruct (Z.eqb_spec v EMPTY_CELL) as [Hv|Hv].
        -- rewrite decide_False; [done|]. by intros [? _].
        -- by rewrite decide_True.
      * rewrite (decide_False (P := v <> _ /\ _)); [done|]. intros (_ & _ & ? & _). done.
    + simpl. rewrite decide_False; [done|]. intros (_ & ? & _ & ?). by apply Hn.
Qed.

Lemma hitShape_cons (row : list Z) (rows : Matrix) (k r c : nat) :
  hitShape x y (row :: rows) k r c =
  if decide (Z.of_nat r = (y + Z.of_nat k)%Z) then hitRow x row 0 c
  else hitShape x y rows (S k) r c.
Proof.
  unfold hitShape. cbv zeta. case_decide as Hr.
  - replace (Z.of_nat r - y - Z.of_nat k)%Z with 0%Z by lia. done.
  - destruct (Z.leb_spec 0 (Z.of_nat r - y - Z.of_nat k)) as [Hi|Hi].
    + assert ((0 <=? Z.of_nat r - y - Z.of_nat (S k))%Z = true) as -> by (apply Z.leb_le; lia).
      replace (Z.to_nat (Z.of_nat r - y - Z.of_nat k))
        with (S (Z.to_nat (Z.of_nat r - y - Z.of_nat (S k)))) by lia.
      done.
    + assert ((0 <=? Z.of_nat r - y - Z.of_nat (S k))%Z = false) as -> by (apply Z.leb_gt; lia).
      done.
Qed.

(** The outer loop over the shape rows, from row [k] on. *)
Lemma get_lockRows (rows : Matrix) (k : nat) (nb : Matrix) (r c : nat) :
  get (forEachFrom
         (fun i row newBoard =>
            forEachFrom (fun j v nb => lockCell ROWS COLS value x y i j v nb) 0 row newBoard)
         k rows nb) r c =
  written value (if decide (inBoard ROWS COLS r c) then hitShape x y rows k r c else None) (get nb r c).
Proof.
  revert k nb. induction rows as [|row rows IH]; intros k nb; simpl.
  - unfold hitShape. cbv zeta. case_decide; [|done].
    destruct (0 <=? _)%Z; [|done]. by rewrite lookup_nil.
  - rewrite IH, get_lockRow, hitShape_cons. clear IH.
    destruct (decide (inBoard ROWS COLS r c)) as [Hin|Hn].
    + destruct (decide (Z.of_nat r = (y + Z.of_nat k)%Z)) as [Hr|Hr].
      * assert (hitShape x y rows (S k) r c = None) as ->.
        { unfold hitShape. cbv zeta.
          assert ((0 <=? Z.of_nat r - y - Z.of_nat (S k))%Z = false) as ->
              by (apply Z.leb_gt; lia). done. }
        simpl. by rewrite decide_True.
      * rewrite (decide_False (P := _ /\ inBoard ROWS COLS r c)); [done|]. by intros [? _].
    + simpl. rewrite decide_False; [done|]. by intros [_ ?].
Qed.

Lemma hitShape_landing (shape : Matrix) (r c : nat) :
  hitShape x y shape 0 r c = landing shape x y r c.
Proof.
  unfold hitShape, landing, hitRow, get. cbv zeta.
  rewrite !Z.sub_0_r.
  destruct (0 <=? Z.of_nat r - y)%Z; simpl; [|done].
  destruct (shape !! Z.to_nat (Z.of_nat r - y)) as [row|]; simpl.
  - by destruct (0 <=? Z.of_nat c - x)%Z.
  - by destruct (0 <=? Z.of_nat c - x)%Z.
Qed.

(** What the write loop of [lockPiece] leaves in every cell: the value of
    the nonzero shape cell that lands there, if the cell passes the guard,
    and the prior content otherwise. *)
Lemma get_lockInto (board shape : Matrix) (r c : nat) :
  get (lockInto ROWS COLS value board shape x y) r c =
  written value (if decide (inBoard ROWS COLS r c) then landing shape x y r c else None) (get board r c).
Proof. unfold lockInto. by rewrite get_lockRows, hitShape_landing. Qed.

Lemma dims_lockCell (i j : nat) (v : Z) (nb : Matrix) :
  dims (lockCell ROWS COLS value x y i j v nb) = dims nb.
Proof.
  unfold lockCell. destruct (v =? EMPTY_CELL)%Z; [done|]. cbv zeta.
  destruct (_ && _); [apply dims_set2|done].
Qed.

Lemma dims_lockRow (i k : nat) (row : list Z) (nb : Matrix) :
  dims (forEachFrom (fun j v nb => lockCell ROWS COLS value x y i j v nb) k row nb) = dims nb.
Proof.
  revert k nb. induction row as [|v row IH]; intros k nb; simpl; [done|].
  by rewrite IH, dims_lockCell.
Qed.

(** The write loop neither adds nor removes a cell. *)
Lemma dims_lockInto (board shape : Matrix) :
  dims (lockInto ROWS COLS value board shape x y) = dims board.
Proof.
  unfold lockInto. generalize 0 at 2 as k. revert board.
  induction shape as [|row rows IH]; intros board k; simpl; [done|].
  by rewrite IH, dims_lockRow.
Qed.

End LockFacts.

Section DropLoopFacts.
Variables ROWS COLS : Z.

(** More fuel does not change the result of a loop that was left. *)
Lemma dropLoop_more_fuel (board shape : Matrix) (x : Z) (n m : nat) (y newY : Z) :
  dropLoop ROWS COLS n board shape x y = Some newY -> n <= m ->
  dropLoop ROWS COLS m board shape x y = Some newY.
Proof.
  revert m y. induction n as [|n IH]; intros m y Hloop Hle; simpl in Hloop; [done|].
  destruct m as [|m]; [lia|]. simpl.
  destruct (collides ROWS COLS board shape x (y + 1)); [done|].
  apply IH; [done|lia].
Qed.

(** The descent loop with enough fuel: the maximal free displacement. *)
Lemma dropLoop_total (board shape : Matrix) (x y : Z) (i j : nat) (v : Z) :
  get shape i j = Some v -> v <> EMPTY_CELL ->
  exists (fuel : nat) (newY : Z),
    (forall n, fuel <= n -> dropLoop ROWS COLS n board shape x y = Some newY) /\
    (y <= newY)%Z /\
    collides ROWS COLS board shape x (newY + 1) = true /\
    (forall y', (y < y' <= newY)%Z -> collides ROWS COLS board shape x y' = false).
Proof.
  intros Hget Hv.
  destruct (dropLoop_terminates ROWS COLS board shape x i j v Hget Hv
              (Z.to_nat (ROWS - Z.of_nat i - y)) y) as (newY & Hloop & Hrest); [lia|].
  exists (S (Z.to_nat (ROWS - Z.of_nat i - y))), newY. split; [|done].
  intros n Hn. by apply (dropLoop_more_fuel _ _ _ _ _ _ _ Hloop).
Qed.
End DropLoopFacts.

(** ** Claims about single operations *)

(** C7: for every board, current piece and [dx] (in particular -1 and +1),
    [movePiece(dx, 0)] either moves the anchor of the current piece by
    exactly [dx] columns, when the destination is collision-free, with the
    board, the shape, [y], the next piece, the score, the lines, the level
    and the stage as they were, or leaves the whole state as it was; a
    blocked horizontal move does not lock the piece.  Both files. *)
Theorem C7_move_changes_only_x_or_nothing (dx : Z) :
  (forall s : Page.State,
     match Page.currentPiece s with
     | None => invoke (Page.movePiece dx 0) s = s
     | Some p =>
         (Page.checkCollision (Page.board s) p (Page.x p + dx) (Page.y p) = false /\
          invoke (Page.movePiece dx 0) s =
          Page.mkState (Page.stage s) (Page.board s)
            (Some (Page.mkPiece (Page.shape p) (Page.type p) (Page.x p + dx) (Page.y p)))
            (Page.nextPiece s) (Page.score s) (Page.linesCleared s) (Page.level s)
            (Page.dropInterval s) (Page.isPaused s) (Page.highScore s))
         \/
         (Page.checkCollision (Page.board s) p (Page.x p + dx) (Page.y p) = true /\
          invoke (Page.movePiece dx 0) s = s)
     end) /\
  (forall (t nt : Tetromino) (s : Part0.State),
     match Part0.currentPiece s with
     | None => invoke (Part0.movePiece dx 0 t nt) s = s
     | Some p =>
         (Part0.checkCollision (Part0.board s) (Part0.shape p) (Part0.x p + dx) (Part0.y p) = false /\
          invoke (Part0.movePiece dx 0 t nt) s =
          Part0.mkState (Part0.stage s) (Part0.board s)
            (Some (Part0.mkPiece (Part0.shape p) (Part0.x p + dx) (Part0.y p)))
            (Part0.nextPiece s) (Part0.score s) (Part0.highScore s) (Part0.paused s))
         \/
         (Part0.checkCollision (Part0.board s) (Part0.shape p) (Part0.x p + dx) (Part0.y p) = true /\
          invoke (Part0.movePiece dx 0 t nt) s = s)
     end).
Proof.
  split.
  - intros s. unfold invoke, Page.movePiece.
    destruct (Page.currentPiece s) as [p|]; [|done].
    cbv zeta. rewrite Z.add_0_r.
    destruct (Page.checkCollision (Page.board s) p (Page.x p + dx) (Page.y p)); simpl.
    + right. done.
    + left. done.
  - intros t nt s. unfold invoke, Part0.movePiece.
    destruct (Part0.currentPiece s) as [p|]; [|done].
    cbv zeta. rewrite Z.add_0_r.
    destruct (Part0.checkCollision (Part0.board s) (Part0.shape p) (Part0.x p + dx) (Part0.y p)); simpl.
    + right. done.
    + left. done.
Qed.

(** What [rotateMatrix] does to a square matrix: the result is square of
    the same size and the element at [(row, col)] is found at
    [(col, n - 1 - row)]. *)
Lemma rotateMatrix_clockwise (n : nat) (m : Matrix) :
  square n m ->
  square n (rotateMatrix m) /\
  forall row col, row < n -> col < n ->
    get (rotateMatrix m) col (n - 1 - row) = get m row col.
Proof.
  intros Hsq. split; [by apply square_rotateMatrix|].
  intros row col Hrow Hcol. pose proof Hsq as [Hlen _].
  rewrite get_rotateMatrix, Hlen, decide_True by lia.
  replace (n - 1 - (n - 1 - row)) with row by lia.
  symmetry. by apply (get_square n).
Qed.

(** C8: for every board and current piece, [rotatePiece] replaces the shape
    of the piece by its clockwise rotation exactly when the rotated shape is
    collision-free at the same anchor, and otherwise leaves the whole state
    as it was; the anchor [(x, y)] is the same in both cases (no wall
    kick).  The rotated shape is the clockwise rotation: for a square shape
    of size [n] (every shape of both files) it is square of size [n] and
    has at [(col, n - 1 - row)] the cell the shape has at [(row, col)].
    Both files. *)
Theorem C8_rotate_applies_only_if_free :
  (forall s : Page.State,
     match Page.currentPiece s with
     | None => invoke Page.rotatePiece s = s
     | Some p =>
         let rotated := Page.mkPiece (rotateMatrix (Page.shape p)) (Page.type p) (Page.x p) (Page.y p) in
         ((Page.checkCollision (Page.board s) rotated (Page.x p) (Page.y p) = false /\
           invoke Page.rotatePiece s =
           Page.mkState (Page.stage s) (Page.board s) (Some rotated)
             (Page.nextPiece s) (Page.score s) (Page.linesCleared s) (Page.level s)
             (Page.dropInterval s) (Page.isPaused s) (Page.highScore s))
          \/
          (Page.checkCollision (Page.board s) rotated (Page.x p) (Page.y p) = true /\
           invoke Page.rotatePiece s = s)) /\
         (forall n, square n (Page.shape p) ->
            square n (Page.shape rotated) /\
            forall row col, row < n -> col < n ->
              get (Page.shape rotated) col (n - 1 - row) = get (Page.shape p) row col)
     end) /\
  (forall s : Part0.State,
     match Part0.currentPiece s with
     | None => invoke Part0.rotatePiece s = s
     | Some p =>
         let rotated := rotateMatrix (Part0.shape p) in
         ((Part0.checkCollision (Part0.board s) rotated (Part0.x p) (Part0.y p) = false /\
           invoke Part0.rotatePiece s =
           Part0.mkState (Part0.stage s) (Part0.board s)
             (Some (Part0.mkPiece rotated (Part0.x p) (Part0.y p)))
             (Part0.nextPiece s) (Part0.score s) (Part0.highScore s) (Part0.paused s))
          \/
          (Part0.checkCollision (Part0.board s) rotated (Part0.x p) (Part0.y p) = true /\
           invoke Part0.rotatePiece s = s)) /\
         (forall n, square n (Part0.shape p) ->
            square n rotated /\
            forall row col, row < n -> col < n ->
              get rotated col (n - 1 - row) = get (Part0.shape p) row col)
     end).
Proof.
  split.
  - intros s. unfold invoke, Page.rotatePiece.
    destruct (Page.currentPiece s) as [p|]; [|done]. cbv zeta.
    split; [|intros n Hsq; by apply rotateMatrix_clockwise].
    destruct (Page.checkCollision _ _ _ _); simpl; [right|left]; done.
  - intros s. unfold invoke, Part0.rotatePiece.
    destruct (Part0.currentPiece s) as [p|]; [|done]. cbv zeta.
    split; [|intros n Hsq; by apply rotateMatrix_clockwise].
    destruct (Part0.checkCollision _ _ _ _); simpl; [right|left]; done.
Qed.

(** C9: for every current piece at every anchor, negative ones included, the
    write loop of [lockPiece] keeps the dimensions of the board and leaves in
    every board cell [(r, c)] its prior value, unless [r < ROWS], [c < COLS]
    and a nonzero shape cell lands on [(r, c)]: then the cell holds the type
    of the piece (page.tsx) or that shape cell (part_000).  Rows and columns
    are counted from 0, so a shape cell whose target row or column is
    negative lands on no cell and is dropped. *)
Theorem C9_lock_writes_only_inside_board :
  (forall (s : Page.State) (p : Page.Piece),
     dims (Page.lockedBoard s p) = dims (Page.board s) /\
     forall r c : nat,
       get (Page.lockedBoard s p) r c =
       match (if decide (inBoard Page.ROWS Page.COLS r c)
              then landing (Page.shape p) (Page.x p) (Page.y p) r c else None) with
       | Some _ => const (Page.type p) <$> get (Page.board s) r c
       | None => get (Page.board s) r c
       end) /\
  (forall (s : Part0.State) (p : Part0.Piece),
     dims (Part0.lockedBoard s p) = dims (Part0.board s) /\
     forall r c : nat,
       get (Part0.lockedBoard s p) r c =
       match (if decide (inBoard Part0.BOARD_HEIGHT Part0.BOARD_WIDTH r c)
              then landing (Part0.shape p) (Part0.x p) (Part0.y p) r c else None) with
       | Some v => const v <$> get (Part0.board s) r c
       | None => get (Part0.board s) r c
       end).
Proof.
  split; intros s p; (split; [apply dims_lockInto|]); intros r c.
  - unfold Page.lockedBoard. by rewrite get_lockInto.
  - unfold Part0.lockedBoard. by rewrite get_lockInto.
Qed.

(** C10: for every board, anchor and shape, the descent loop of [hardDrop]
    is left after finitely many iterations when the shape has a nonzero
    cell: from some fuel on it returns the same [newY], the largest
    displacement with every row on the way collision-free and the next one
    colliding; for a shape without a nonzero cell the loop is never left,
    whatever the fuel.  Both files, whose [checkCollision] is [collides]. *)
Theorem C10_hard_drop_loop_terminates (board shape : Matrix) (x y : Z) :
  ((exists i j v, get shape i j = Some v /\ v <> EMPTY_CELL) ->
   exists (fuel : nat) (newY : Z),
     (forall n, fuel <= n ->
        dropLoop Page.ROWS Page.COLS n board shape x y = Some newY /\
        dropLoop Part0.BOARD_HEIGHT Part0.BOARD_WIDTH n board shape x y = Some newY) /\
     (y <= newY)%Z /\
     collides Page.ROWS Page.COLS board shape x (newY + 1) = true /\
     (forall y', (y < y' <= newY)%Z -> collides Page.ROWS Page.COLS board shape x y' = false)) /\
  ((forall i j v, get shape i j = Some v -> v = EMPTY_CELL) ->
   forall fuel : nat,
     dropLoop Page.ROWS Page.COLS fuel board shape x y = None /\
     dropLoop Part0.BOARD_HEIGHT Part0.BOARD_WIDTH fuel board shape x y = None).
Proof.
  split.
  - intros (i & j & v & Hget & Hv).
    destruct (dropLoop_total Page.ROWS Page.COLS board shape x y i j v Hget Hv)
      as (fuel & newY & Hloop & Hrest).
    exists fuel, newY. split; [|done]. intros n Hn. split; by apply Hloop.
  - intros Hz fuel. split; by apply dropLoop_all_zero.
Qed.

(** Runs the setter calls of a handler down to the record they build, with
    every state of the context split into its fields. *)
Ltac run_setters :=
  repeat match goal with
         | s : Page.State |- _ => destruct s
         | s : Part0.State |- _ => destruct s
         end;
  cbv [andThen skip invoke Page.spawnPiece Part0.spawnPiece
       Page.setStage Page.setBoard Page.setCurrentPiece Page.setNextPiece Page.setScore
       Page.setLinesCleared Page.setLevel Page.setDropInterval Page.setIsPaused
       Page.setHighScore
       Page.stage Page.board Page.currentPiece Page.nextPiece Page.score Page.linesCleared
       Page.level Page.dropInterval Page.isPaused Page.highScore
       Part0.setStage Part0.setBoard Part0.setCurrentPiece Part0.setNextPiece Part0.setScore
       Part0.setHighScore Part0.setPaused
       Part0.stage Part0.board Part0.currentPiece Part0.nextPiece Part0.score
       Part0.highScore Part0.paused] in *.

(** C5: whenever the game-over condition holds while the stage is [game]
    (page.tsx: some cell of row 0 of the board is occupied; part_000: the
    current piece collides where it is), the game-over effect sets the stage
    to [results], and the commit changes the stored high score, which is
    what makes the persistence effect fire, if and only if the score is
    strictly greater than the high score; the high score then is the score.
    Nothing else changes. *)
Theorem C5_game_over_transition_and_high_score :
  (forall s : Page.State,
     Page.stage s = game ->
     hasBlock (nth 0 (Page.board s) []) = true ->
     let s' := invoke Page.gameOverEffect s in
     Page.stage s' = results /\
     (Page.highScoreSaved s s' = true <-> (Page.highScore s < Page.score s)%Z) /\
     s' = Page.mkState results (Page.board s) (Page.currentPiece s) (Page.nextPiece s)
            (Page.score s) (Page.linesCleared s) (Page.level s) (Page.dropInterval s)
            (Page.isPaused s) (Z.max (Page.highScore s) (Page.score s))) /\
  (forall (s : Part0.State) (p : Part0.Piece),
     Part0.stage s = game ->
     Part0.currentPiece s = Some p ->
     Part0.checkCollision (Part0.board s) (Part0.shape p) (Part0.x p) (Part0.y p) = true ->
     let s' := invoke Part0.gameOverEffect s in
     Part0.stage s' = results /\
     (Part0.highScoreSaved s s' = true <-> (Part0.highScore s < Part0.score s)%Z) /\
     s' = Part0.mkState results (Part0.board s) (Part0.currentPiece s) (Part0.nextPiece s)
            (Part0.score s) (Z.max (Part0.highScore s) (Part0.score s)) (Part0.paused s)).
Proof.
  split.
  - intros s Hstage Hrow. unfold invoke, Page.gameOverEffect, Page.highScoreSaved.
    rewrite Hstage, Hrow. cbn [isGame negb]. cbv zeta.
    destruct (Z.gtb_spec (Page.score s) (Page.highScore s)) as [Hgt|Hle]; run_setters.
    + split; [done|]. split.
      * rewrite negb_true_iff, Z.eqb_neq. split; lia.
      * f_equal. lia.
    + split; [done|]. split.
      * rewrite negb_true_iff, Z.eqb_neq. split; lia.
      * f_equal. lia.
  - intros s p _ Hcur Hcoll. unfold invoke, Part0.gameOverEffect, Part0.highScoreSaved.
    rewrite Hcur, Hcoll. cbv zeta.
    destruct (Z.gtb_spec (Part0.score s) (Part0.highScore s)) as [Hgt|Hle]; run_setters.
    + split; [done|]. split.
      * rewrite negb_true_iff, Z.eqb_neq. split; lia.
      * f_equal; [done|lia].
    + split; [done|]. split.
      * rewrite negb_true_iff, Z.eqb_neq. split; lia.
      * f_equal; [done|lia].
Qed.

(** ** The line clear *)

Lemma filterFrom_filter {A : Type} (f : nat -> A -> bool) (g : A -> bool) (k : nat) (l : list A) :
  (forall i a, l !! i = Some a -> f (k + i) a = g a) ->
  filterFrom f k l = List.filter g l.
Proof.
  revert k. induction l as [|a l IH]; intros k Hfg; simpl; [done|].
  rewrite <- (Hfg 0 a eq_refl), Nat.add_0_r.
  rewrite (IH (S k)); [done|].
  intros i b Hb. rewrite Nat.add_succ_l, <- Nat.add_succ_r. by apply Hfg.
Qed.

Lemma includes_true (arr : list nat) (idx : nat) :
  includes arr idx = true <-> In idx arr.
Proof.
  unfold includes. rewrite existsb_exists. split.
  - intros (j & Hin & Heq). apply Nat.eqb_eq in Heq. by subst.
  - intros Hin. exists idx. split; [done|]. apply Nat.eqb_refl.
Qed.

Lemma count_full_by_index (l : Matrix) (P : nat -> bool) (k : nat) :
  (forall i row, l !! i = Some row -> P (k + i) = isFull row) ->
  length (List.filter P (seq k (length l))) = length (List.filter isFull l).
Proof.
  revert k. induction l as [|a l IH]; intros k HP; simpl; [done|].
  rewrite <- (HP 0 a eq_refl), Nat.add_0_r.
  assert (Htail : length (List.filter P (seq (S k) (length l))) = length (List.filter isFull l)).
  { apply IH. intros i row Hrow. rewrite Nat.add_succ_l, <- Nat.add_succ_r. by apply HP. }
  destruct (P k); simpl; by rewrite Htail.
Qed.

Lemma filter_all {A : Type} (g : A -> bool) (l : list A) :
  length (List.filter g l) = length l -> List.filter g l = l.
Proof.
  induction l as [|a l IH]; simpl; [done|].
  pose proof (List.filter_length_le g l) as Hle.
  destruct (g a); simpl; intros Hlen; [f_equal; apply IH; lia|lia].
Qed.

Lemma filter_partition_length {A : Type} (g : A -> bool) (l : list A) :
  length (List.filter g l) + length (List.filter (fun a => negb (g a)) l) = length l.
Proof. induction l as [|a l IH]; simpl; [done|]. destruct (g a); simpl; lia. Qed.

Lemma hasEmpty_isFull (row : list Z) : hasEmpty row = negb (isFull row).
Proof.
  unfold hasEmpty, isFull. induction row as [|v row IH]; simpl; [done|].
  rewrite IH. by destruct (v =? EMPTY_CELL)%Z.
Qed.

(** The line clear of the specification keeps the number of rows and, on a
    board with columns, leaves no full row. *)
Lemma specClear_length (cols : nat) (board : Matrix) :
  length (specClear cols board) = length board.
Proof.
  unfold specClear, zeros. rewrite length_app, length_replicate.
  apply filter_partition_length.
Qed.

Lemma specClear_no_full_row (cols : nat) (board : Matrix) :
  0 < cols -> Forall (fun row => isFull row = false) (specClear cols board).
Proof.
  intros Hcols. unfold specClear, zeros. apply Forall_app. split.
  - apply Forall_replicate. destruct cols as [|cols]; [lia|]. done.
  - apply Forall_forall. intros row Hin. apply list_elem_of_In, filter_In in Hin as [_ Hnot].
    by apply negb_true_iff.
Qed.

Lemma specClear_dims (cols : nat) (board : Matrix) :
  dims board = replicate (length board) cols ->
  dims (specClear cols board) = replicate (length board) cols.
Proof.
  intros Hd. rewrite <- (specClear_length cols board).
  apply dims_uniform. unfold specClear, zeros. apply Forall_app. split.
  - apply Forall_replicate. by rewrite length_replicate.
  - apply Forall_forall. intros row Hin. apply list_elem_of_In, filter_In in Hin as [Hin _].
    apply list_elem_of_In, list_elem_of_lookup in Hin as [i Hi].
    assert (Hl : dims board !! i = Some (length row)) by (unfold dims; by rewrite list_lookup_fmap, Hi).
    rewrite Hd in Hl. by apply lookup_replicate in Hl as [-> _].
Qed.

Lemma specClear_nothing_full (cols : nat) (board : Matrix) :
  length (List.filter isFull board) = 0 -> specClear cols board = board.
Proof.
  intros Hnone. unfold specClear. rewrite Hnone. simpl.
  apply filter_all. pose proof (filter_partition_length isFull board). lia.
Qed.

Lemma Page_fullRowsOf_In (newBoard : Matrix) (idx : nat) (row : list Z) :
  newBoard !! idx = Some row -> length newBoard = 20 ->
  (In idx (Page.fullRowsOf newBoard) <-> isFull row = true).
Proof.
  intros Hrow Hlen. unfold Page.fullRowsOf. rewrite filter_In, Hrow, in_seq.
  apply lookup_lt_Some in Hrow. change (Z.to_nat Page.ROWS) with 20. split; [by intros [_ ?]|].
  intros Hfull. split; [lia|done].
Qed.

(** [fullRows.length] is the number of full rows of a board of 20 rows. *)
Lemma Page_fullRowsOf_length (newBoard : Matrix) :
  length newBoard = 20 ->
  length (Page.fullRowsOf newBoard) = length (List.filter isFull newBoard).
Proof.
  intros Hlen. unfold Page.fullRowsOf. change (Z.to_nat Page.ROWS) with 20.
  rewrite <- Hlen. apply count_full_by_index. intros i row Hrow. simpl. by rewrite Hrow.
Qed.

(** [remaining] is the board without its full rows, in order. *)
Lemma Page_remaining (newBoard : Matrix) :
  length newBoard = 20 ->
  filterFrom (fun idx _ => negb (includes (Page.fullRowsOf newBoard) idx)) 0 newBoard =
  List.filter (fun row => negb (isFull row)) newBoard.
Proof.
  intros Hlen. apply filterFrom_filter. intros i row Hrow. simpl. f_equal.
  apply eq_true_iff_eq. rewrite includes_true. by apply Page_fullRowsOf_In.
Qed.

(** What [lockPiece] of page.tsx leaves in the state, one field at a time:
    [setBoard(newBoard)], then the setters of [clearLines], then those of
    [spawnPiece]. *)
Lemma Page_lockPiece_fields (s st : Page.State) (p : Page.Piece) (t nt : Tetromino) :
  Page.currentPiece s = Some p -> length (Page.board s) = 20 ->
  let newBoard := Page.lockedBoard s p in
  let k := Z.of_nat (length (List.filter isFull newBoard)) in
  let st' := Page.lockPiece s t nt st in
  Page.board st' = specClear 10 newBoard /\
  Page.score st' = (Page.score st + k * 10 * Page.level s)%Z /\
  Page.linesCleared st' = (Page.linesCleared st + k)%Z /\
  Page.level st' =
    (if (0 <? k)%Z && (Z.rem (Page.linesCleared s + k) 10 =? 0)%Z
     then Page.level st + 1 else Page.level st)%Z /\
  Page.dropInterval st' =
    (if (0 <? k)%Z && (Z.rem (Page.linesCleared s + k) 10 =? 0)%Z
     then Z.max 200 (Page.dropInterval st - 100) else Page.dropInterval st)%Z /\
  Page.currentPiece st' =
    Some (Page.mkPiece (Page.shapeOf t) (Page.typeOf t) 3 0) /\
  Page.nextPiece st' = Some (Page.mkNext (Page.shapeOf nt) (Page.typeOf nt)) /\
  Page.stage st' = Page.stage st /\
  Page.isPaused st' = Page.isPaused st /\
  Page.highScore st' = Page.highScore st.
Proof.
  intros Hcur Hlen newBoard k st'. subst st'. unfold Page.lockPiece. rewrite Hcur.
  fold newBoard.
  assert (Hlen' : length newBoard = 20).
  { unfold newBoard, Page.lockedBoard.
    pose proof (dims_lockInto Page.ROWS Page.COLS (fun _ => Page.type p) (Page.x p) (Page.y p)
                  (Page.board s) (Page.shape p)) as Hd.
    apply (f_equal length) in Hd. unfold dims in Hd. by rewrite !length_fmap, Hlen in Hd. }
  unfold Page.clearLines. cbv zeta.
  rewrite (Page_remaining newBoard Hlen'), (Page_fullRowsOf_length newBoard Hlen').
  fold k. destruct (Nat.eqb_spec (length (List.filter isFull newBoard)) 0) as [Hz|Hnz].
  - assert (k = 0%Z) as -> by (unfold k; lia). run_setters.
    rewrite (specClear_nothing_full 10 newBoard Hz).
    split_and!; first [reflexivity | lia].
  - assert ((0 <? k)%Z = true) as -> by (apply Z.ltb_lt; unfold k; lia).
    rewrite andb_true_l.
    destruct (Z.rem (Page.linesCleared s + k) 10 =? 0)%Z; run_setters;
      split_and!; reflexivity.
Qed.

(** ** The tick *)

(** What the tick of page.tsx does, in the two cases of its test. *)
Lemma Page_tick (t nt : Tetromino) (s : Page.State) (p : Page.Piece) :
  Page.currentPiece s = Some p -> length (Page.board s) = 20 ->
  (Page.checkCollision (Page.board s) p (Page.x p) (Page.y p + 1) = false ->
   invoke (Page.dropPiece t nt) s =
   Page.mkState (Page.stage s) (Page.board s)
     (Some (Page.mkPiece (Page.shape p) (Page.type p) (Page.x p) (Page.y p + 1)))
     (Page.nextPiece s) (Page.score s) (Page.linesCleared s) (Page.level s)
     (Page.dropInterval s) (Page.isPaused s) (Page.highScore s)) /\
  (Page.checkCollision (Page.board s) p (Page.x p) (Page.y p + 1) = true ->
   let s' := invoke (Page.dropPiece t nt) s in
   Page.board s' = specClear 10 (Page.lockedBoard s p) /\
   Page.currentPiece s' = Some (Page.mkPiece (Page.shapeOf t) (Page.typeOf t) 3 0) /\
   Page.nextPiece s' = Some (Page.mkNext (Page.shapeOf nt) (Page.typeOf nt))).
Proof.
  intros Hcur Hlen. split; intros Hc.
  - unfold invoke, Page.dropPiece. rewrite Hcur. cbv zeta. rewrite Hc. by run_setters.
  - intros s'. subst s'. unfold invoke, Page.dropPiece. rewrite Hcur. cbv zeta. rewrite Hc.
    cbn [negb].
    destruct (Page_lockPiece_fields s s p t nt Hcur Hlen) as (Hb & _ & _ & _ & _ & Hp & Hn & _).
    done.
Qed.

(** What the tick of part_000, [movePiece(0, 1)], does. *)
Lemma Part0_tick (t nt : Tetromino) (s : Part0.State) (p : Part0.Piece) :
  Part0.currentPiece s = Some p ->
  (Part0.checkCollision (Part0.board s) (Part0.shape p) (Part0.x p) (Part0.y p + 1) = false ->
   invoke (Part0.movePiece 0 1 t nt) s =
   Part0.mkState (Part0.stage s) (Part0.board s)
     (Some (Part0.mkPiece (Part0.shape p) (Part0.x p) (Part0.y p + 1)))
     (Part0.nextPiece s) (Part0.score s) (Part0.highScore s) (Part0.paused s)) /\
  (Part0.checkCollision (Part0.board s) (Part0.shape p) (Part0.x p) (Part0.y p + 1) = true ->
   let s' := invoke (Part0.movePiece 0 1 t nt) s in
   Part0.board s' = Part0.lockedBoard s p /\
   Part0.score s' = (Part0.score s + Part0.clearLines (Part0.lockedBoard s p))%Z /\
   Part0.currentPiece s' =
     Some (Part0.mkPiece (Part0.shapeOf t)
             ((10 - Z.of_nat (length (nth 0 (Part0.shapeOf t) []))) / 2)
             (- Z.of_nat (length (Part0.shapeOf t)))) /\
   Part0.nextPiece s' = Some (Part0.shapeOf nt)).
Proof.
  intros Hcur. split; intros Hc.
  - unfold invoke, Part0.movePiece. rewrite Hcur. cbv zeta. rewrite Z.add_0_r, Hc.
    by run_setters.
  - intros s'. subst s'. unfold invoke, Part0.movePiece. rewrite Hcur. cbv zeta.
    rewrite Z.add_0_r, Hc. cbn [negb Z.eqb Pos.eqb]. unfold Part0.lockPiece. rewrite Hcur.
    cbv zeta. generalize (Part0.clearLines (Part0.lockedBoard s p)) as cleared.
    generalize (Part0.lockedBoard s p) as newBoard. intros newBoard cleared.
    clear Hc. by run_setters.
Qed.

(** ** Claims about the lock *)

(** C1, at a state the game reaches: the O piece of [pageOnFloor]
    (part_000: [part0OnFloor]) cannot go down, the queued next piece is the
    I piece, and the tick locks the O piece and makes the freshly drawn T
    piece the current piece, not the queued I piece; the second draw, S,
    becomes the next piece. *)
Theorem C1_tick_spawns_a_fresh_draw_not_the_queued_next :
  (Page.nextPiece pageOnFloor = Some (Page.mkNext (Page.shapeOf TI) 1) /\
   Page.currentPiece pageOnFloor = Some (Page.mkPiece (Page.shapeOf TO) 2 3 17) /\
   Page.checkCollision (Page.board pageOnFloor) (Page.mkPiece (Page.shapeOf TO) 2 3 17) 3 18 = true /\
   let s' := invoke (Page.dropPiece TT TS) pageOnFloor in
   Page.board s' = <[18%nat := [0;0;0;0;2;2;0;0;0;0]%Z]> (<[19%nat := [0;0;0;0;2;2;0;0;0;0]%Z]> emptyBoard) /\
   Page.currentPiece s' = Some (Page.mkPiece (Page.shapeOf TT) 3 3 0) /\
   Page.nextPiece s' = Some (Page.mkNext (Page.shapeOf TS) 4)) /\
  (Part0.nextPiece part0OnFloor = Some (Part0.shapeOf TI) /\
   Part0.currentPiece part0OnFloor = Some (Part0.mkPiece (Part0.shapeOf TO) 4 18) /\
   Part0.checkCollision (Part0.board part0OnFloor) (Part0.shapeOf TO) 4 19 = true /\
   let s' := invoke (Part0.movePiece 0 1 TT TS) part0OnFloor in
   Part0.board s' = <[18%nat := [0;0;0;0;2;2;0;0;0;0]%Z]> (<[19%nat := [0;0;0;0;2;2;0;0;0;0]%Z]> emptyBoard) /\
   Part0.currentPiece s' = Some (Part0.mkPiece (Part0.shapeOf TT) 3 (-3)) /\
   Part0.nextPiece s' = Some (Part0.shapeOf TS)).
Proof. vm_compute. repeat split. Qed.

Lemma Page_lockedBoard_length (s : Page.State) (p : Page.Piece) :
  length (Page.lockedBoard s p) = length (Page.board s).
Proof.
  pose proof (dims_lockInto Page.ROWS Page.COLS (fun _ => Page.type p) (Page.x p) (Page.y p)
                (Page.board s) (Page.shape p)) as Hd.
  apply (f_equal length) in Hd. unfold dims in Hd. by rewrite !length_fmap in Hd.
Qed.

Lemma Part0_lockedBoard_length (s : Part0.State) (p : Part0.Piece) :
  length (Part0.lockedBoard s p) = length (Part0.board s).
Proof.
  pose proof (dims_lockInto Part0.BOARD_HEIGHT Part0.BOARD_WIDTH (fun cell => cell)
                (Part0.x p) (Part0.y p) (Part0.board s) (Part0.shape p)) as Hd.
  apply (f_equal length) in Hd. unfold dims in Hd. by rewrite !length_fmap in Hd.
Qed.

(** [clearLines] of part_000 returns 100 for every full row of a board of
    20 rows. *)
Lemma Part0_clearLines_count (boardToCheck : Matrix) :
  length boardToCheck = 20 ->
  Part0.clearLines boardToCheck = (100 * Z.of_nat (length (List.filter isFull boardToCheck)))%Z.
Proof.
  intros Hlen. unfold Part0.clearLines. cbv zeta.
  rewrite (List.filter_ext hasEmpty (fun row => negb (isFull row)) hasEmpty_isFull).
  pose proof (filter_partition_length isFull boardToCheck) as Hsum.
  change Part0.BOARD_HEIGHT with 20%Z. lia.
Qed.

(** The board page.tsx holds after a lock: that of the specification. *)
Lemma Page_lock_clears_full_rows (s : Page.State) (p : Page.Piece) (t nt : Tetromino) :
  Page.currentPiece s = Some p -> wfBoard Page.ROWS Page.COLS (Page.board s) ->
  let board' := Page.board (invoke (fun s => Page.lockPiece s t nt) s) in
  board' = specClear 10 (Page.lockedBoard s p) /\
  length board' = 20 /\
  Forall (fun row => isFull row = false) board' /\
  wfBoard Page.ROWS Page.COLS board'.
Proof.
  intros Hcur Hwf board'. subst board'. unfold invoke.
  assert (Hlen : length (Page.board s) = 20).
  { apply (f_equal length) in Hwf. unfold dims in Hwf.
    by rewrite length_fmap, length_replicate in Hwf. }
  destruct (Page_lockPiece_fields s s p t nt Hcur Hlen) as (-> & _).
  pose proof (Page_lockedBoard_length s p) as Hlen'. rewrite Hlen in Hlen'.
  split; [done|]. split; [by rewrite specClear_length|].
  split; [apply specClear_no_full_row; lia|].
  unfold wfBoard. change (Z.to_nat Page.ROWS) with 20. change (Z.to_nat Page.COLS) with 10.
  rewrite <- Hlen'. apply specClear_dims. rewrite Hlen'.
  unfold Page.lockedBoard. by rewrite dims_lockInto.
Qed.

(** The level rule of page.tsx: a lock that clears no row changes neither
    score, lines, level nor drop interval; one that clears [k > 0] rows
    raises the level, and lowers the drop interval by 100 down to 200, exactly
    when the new total is a multiple of 10. *)
Lemma Page_level_rule (s : Page.State) (p : Page.Piece) (t nt : Tetromino) :
  Page.currentPiece s = Some p -> length (Page.board s) = 20 ->
  let k := Z.of_nat (length (List.filter isFull (Page.lockedBoard s p))) in
  let n := Page.linesCleared s in
  let s' := invoke (fun s => Page.lockPiece s t nt) s in
  (k = 0%Z ->
   Page.score s' = Page.score s /\ Page.linesCleared s' = n /\
   Page.level s' = Page.level s /\ Page.dropInterval s' = Page.dropInterval s) /\
  ((0 < k)%Z ->
   Page.linesCleared s' = (n + k)%Z /\
   ((Z.rem (n + k) 10 = 0%Z /\ Page.level s' = (Page.level s + 1)%Z /\
     Page.dropInterval s' = Z.max 200 (Page.dropInterval s - 100))
    \/
    (Z.rem (n + k) 10 <> 0%Z /\ Page.level s' = Page.level s /\
     Page.dropInterval s' = Page.dropInterval s))) /\
  ((200 <= Page.dropInterval s)%Z ->
   (200 <= Page.dropInterval s' <= Page.dropInterval s)%Z).
Proof.
  intros Hcur Hlen k n s'. subst s'. unfold invoke.
  destruct (Page_lockPiece_fields s s p t nt Hcur Hlen)
    as (_ & Hsc & Hli & Hlv & Hdi & _).
  fold k in Hsc, Hli, Hlv, Hdi. fold n in Hli, Hlv, Hdi.
  rewrite Hsc, Hli, Hlv, Hdi. clear Hsc Hli Hlv Hdi.
  split; [|split].
  - intros ->. cbn [Z.ltb Z.compare andb]. lia.
  - intros Hk. assert ((0 <? k)%Z = true) as -> by (by apply Z.ltb_lt). rewrite andb_true_l.
    split; [done|]. destruct (Z.eqb_spec (Z.rem (n + k) 10) 0) as [Hr|Hr]; [left|right]; done.
  - intros Hdi. destruct (_ && _); lia.
Qed.

(** Counterexample to C2 as stated: in part_000 the lock that completes one
    row awards 100 points, which is not [10 * 1 * L] for every [L >= 1]. *)
Lemma C2_part0_award_is_flat_counterexample :
  ~ (forall L : Z, (1 <= L)%Z ->
       (Part0.score (invoke (Part0.movePiece 0 1 TT TS) part0RowReady)
        - Part0.score part0RowReady)%Z =
       (10 * Z.of_nat (length (List.filter isFull
                         (Part0.lockedBoard part0RowReady
                            (Part0.mkPiece (Part0.shapeOf TI) 6 18)))) * L)%Z).
Proof. intros H. specialize (H 1%Z ltac:(lia)). vm_compute in H. discriminate H. Qed.

(** C2 as amended: in page.tsx a lock made at level [L] that clears [k]
    rows of a board of 20 rows adds exactly [10 * k * L] to the score, for
    every [k] and [L]; in part_000, which has no level, a lock adds a flat
    100 for every row it counts as cleared. *)
Theorem C2_score_award_per_variant :
  (forall (s : Page.State) (p : Page.Piece) (t nt : Tetromino),
     Page.currentPiece s = Some p -> length (Page.board s) = 20 ->
     let k := Z.of_nat (length (List.filter isFull (Page.lockedBoard s p))) in
     Page.score (invoke (fun s => Page.lockPiece s t nt) s) =
     (Page.score s + 10 * k * Page.level s)%Z) /\
  (forall (s : Part0.State) (p : Part0.Piece) (t nt : Tetromino),
     Part0.currentPiece s = Some p -> length (Part0.board s) = 20 ->
     let k := Z.of_nat (length (List.filter isFull (Part0.lockedBoard s p))) in
     Part0.score (invoke (fun s => Part0.lockPiece s t nt) s) =
     (Part0.score s + 100 * k)%Z).
Proof.
  split.
  - intros s p t nt Hcur Hlen k. unfold invoke.
    destruct (Page_lockPiece_fields s s p t nt Hcur Hlen) as (_ & -> & _). fold k. lia.
  - intros s p t nt Hcur Hlen k. unfold invoke, Part0.lockPiece. rewrite Hcur. cbv zeta.
    rewrite Part0_clearLines_count by (by rewrite Part0_lockedBoard_length).
    fold k. generalize (Part0.lockedBoard s p) as newBoard. intros newBoard.
    clear Hcur Hlen. subst k. run_setters. reflexivity.
Qed.

(** C3, at [part0RowReady]: the lock of part_000 completes the bottom row,
    counts it (the score goes from 0 to 100) and keeps it: the board held
    afterwards still has the full row 19 and is not the board with the full
    rows removed.  The next lock counts the same row again. *)
Theorem C3_part0_lock_keeps_the_full_row :
  let s' := invoke (Part0.movePiece 0 1 TT TS) part0RowReady in
  let newBoard := Part0.lockedBoard part0RowReady (Part0.mkPiece (Part0.shapeOf TI) 6 18) in
  Part0.board s' = newBoard /\
  Part0.board s' !! 19 = Some [2; 2; 2; 2; 2; 2; 1; 1; 1; 1]%Z /\
  List.filter isFull (Part0.board s') = [[2; 2; 2; 2; 2; 2; 1; 1; 1; 1]%Z] /\
  Part0.board s' <> specClear 10 newBoard /\
  Part0.score s' = 100%Z /\
  Part0.score (Nat.iter 21 (invoke (Part0.movePiece 0 1 TO TS)) s') = 200%Z.
Proof. vm_compute. repeat split. discriminate. Qed.

(** C4, at [pageNineLines]: the lock of page.tsx clears two rows, the total
    goes from 9 to 11 and passes 10, and the level stays 1 and the drop
    interval 1000. *)
Theorem C4_page_level_up_missed_when_total_passes_ten :
  let s' := invoke (Page.dropPiece TT TS) pageNineLines in
  Page.linesCleared pageNineLines = 9%Z /\
  Page.level pageNineLines = 1%Z /\
  Page.dropInterval pageNineLines = 1000%Z /\
  length (List.filter isFull
            (Page.lockedBoard pageNineLines (Page.mkPiece (Page.shapeOf TO) 2 7 17))) = 2 /\
  Page.board s' = emptyBoard /\
  Page.score s' = 110%Z /\
  Page.linesCleared s' = 11%Z /\
  Page.level s' = 1%Z /\
  Page.dropInterval s' = 1000%Z.
Proof. vm_compute. repeat split. Qed.

(** ** The hard drop *)

(** With a piece that has a nonzero cell, [hardDrop] returns in both files. *)
Lemma hardDrop_returns (t nt : Tetromino) :
  (forall (s : Page.State) (p : Page.Piece),
     Page.currentPiece s = Some p ->
     (exists i j v, get (Page.shape p) i j = Some v /\ v <> EMPTY_CELL) ->
     exists fuel, forall n, fuel <= n -> is_Some (Page.hardDrop n t nt s)) /\
  (forall (s : Part0.State) (p : Part0.Piece),
     Part0.currentPiece s = Some p ->
     (exists i j v, get (Part0.shape p) i j = Some v /\ v <> EMPTY_CELL) ->
     exists fuel, forall n, fuel <= n -> is_Some (Part0.hardDrop n t nt s)).
Proof.
  split; intros s p Hcur (i & j & v & Hget & Hv).
  - destruct (dropLoop_total Page.ROWS Page.COLS (Page.board s) (Page.shape p)
                (Page.x p) (Page.y p) i j v Hget Hv) as (fuel & newY & Hloop & _).
    exists fuel. intros n Hn. unfold Page.hardDrop. rewrite Hcur, (Hloop n Hn). by eexists.
  - destruct (dropLoop_total Part0.BOARD_HEIGHT Part0.BOARD_WIDTH (Part0.board s) (Part0.shape p)
                (Part0.x p) (Part0.y p) i j v Hget Hv) as (fuel & newY & Hloop & _).
    exists fuel. intros n Hn. unfold Part0.hardDrop. rewrite Hcur, (Hloop n Hn). by eexists.
Qed.

(** [lockPiece], called by [hardDrop] in the same closure, reads the
    [currentPiece] of the render: right after [startGame] the O piece of
    page.tsx is locked in rows 1 and 2, where it was, and not on the floor
    the loop found ([newY = 17]). *)
Remark Page_hardDrop_locks_where_the_piece_was :
  let s := invoke (Page.startGame TO TI) pageInit in
  dropLoop Page.ROWS Page.COLS 30 (Page.board s) (Page.shapeOf TO) 3 0 = Some 17%Z /\
  (fun u => Page.board (u s)) <$> Page.hardDrop 30 TT TS s =
  Some (<[1%nat := [0;0;0;0;2;2;0;0;0;0]%Z]> (<[2%nat := [0;0;0;0;2;2;0;0;0;0]%Z]> emptyBoard)).
Proof. vm_compute. split; reflexivity. Qed.

(** ** Witnesses *)

Lemma C2_score_award_per_variant_witness :
  (Page.currentPiece pageNineLines = Some (Page.mkPiece (Page.shapeOf TO) 2 7 17) /\
   length (Page.board pageNineLines) = 20 /\
   Page.score (invoke (fun s => Page.lockPiece s TT TS) pageNineLines) =
   (Page.score pageNineLines
    + 10 * Z.of_nat (length (List.filter isFull
                       (Page.lockedBoard pageNineLines (Page.mkPiece (Page.shapeOf TO) 2 7 17))))
      * Page.level pageNineLines)%Z) /\
  (Part0.currentPiece part0RowReady = Some (Part0.mkPiece (Part0.shapeOf TI) 6 18) /\
   length (Part0.board part0RowReady) = 20 /\
   Part0.score (invoke (fun s => Part0.lockPiece s TT TS) part0RowReady) =
   (Part0.score part0RowReady
    + 100 * Z.of_nat (length (List.filter isFull
                        (Part0.lockedBoard part0RowReady (Part0.mkPiece (Part0.shapeOf TI) 6 18)))))%Z).
Proof.
  split.
  - split; [reflexivity|]. split; [reflexivity|].
    exact (proj1 C2_score_award_per_variant pageNineLines _ TT TS eq_refl eq_refl).
  - split; [reflexivity|]. split; [reflexivity|].
    exact (proj2 C2_score_award_per_variant part0RowReady _ TT TS eq_refl eq_refl).
Defined.

Lemma C5_game_over_transition_and_high_score_witness :
  (Page.stage pageToppedOut = game /\
   hasBlock (nth 0 (Page.board pageToppedOut) []) = true /\
   Page.stage (invoke Page.gameOverEffect pageToppedOut) = results /\
   Page.highScoreSaved pageToppedOut (invoke Page.gameOverEffect pageToppedOut) = true) /\
  (Part0.stage part0Stuck = game /\
   Part0.checkCollision (Part0.board part0Stuck) (Part0.shapeOf TO) 4 18 = true /\
   Part0.stage (invoke Part0.gameOverEffect part0Stuck) = results /\
   Part0.highScoreSaved part0Stuck (invoke Part0.gameOverEffect part0Stuck) = true).
Proof.
  split.
  - split; [reflexivity|]. split; [reflexivity|].
    destruct (proj1 C5_game_over_transition_and_high_score pageToppedOut eq_refl eq_refl)
      as (Hstage & Hsaved & _).
    split; [exact Hstage|]. apply Hsaved. vm_compute. reflexivity.
  - split; [reflexivity|]. split; [reflexivity|].
    destruct (proj2 C5_game_over_transition_and_high_score part0Stuck _ eq_refl eq_refl eq_refl)
      as (Hstage & Hsaved & _).
    split; [exact Hstage|]. apply Hsaved. vm_compute. reflexivity.
Defined.

Lemma C6_rotateMatrix_clockwise_and_four_fold_witness :
  square 4 (Page.shapeOf TL) /\
  rotateMatrix (rotateMatrix (rotateMatrix (rotateMatrix (Page.shapeOf TL)))) = Page.shapeOf TL.
Proof.
  assert (Hsq : square 4 (Page.shapeOf TL)) by (split; [reflexivity|repeat constructor]).
  split; [exact Hsq|].
  exact (proj2 (proj2 (C6_rotateMatrix_clockwise_and_four_fold 4 (Page.shapeOf TL) Hsq))).
Defined.

Lemma C8_rotate_applies_only_if_free_witness :
  (invoke Page.rotatePiece pageWithT =
   Page.setCurrentPiece
     (Some (Page.mkPiece [[0; 0; 3; 0]; [0; 3; 3; 0]; [0; 0; 3; 0]; [0; 0; 0; 0]]%Z 3 3 0))
     pageWithT /\
   forall row col, row < 4 -> col < 4 ->
     get (rotateMatrix (Page.shapeOf TT)) col (4 - 1 - row) = get (Page.shapeOf TT) row col) /\
  (invoke Part0.rotatePiece part0WithT =
   Part0.setCurrentPiece
     (Some (Part0.mkPiece [[0; 3; 0]; [0; 3; 3]; [0; 3; 0]]%Z 3 (-3))) part0WithT /\
   forall row col, row < 3 -> col < 3 ->
     get (rotateMatrix (Part0.shapeOf TT)) col (3 - 1 - row) = get (Part0.shapeOf TT) row col).
Proof.
  split.
  - pose proof (proj1 C8_rotate_applies_only_if_free pageWithT) as H.
    cbn [Page.currentPiece pageWithT] in H. cbv zeta in H.
    destruct H as [[[_ Hfree]|[Hblocked _]] Hrot].
    + split; [exact Hfree|].
      apply (Hrot 4). split; [reflexivity|repeat constructor].
    + vm_compute in Hblocked. discriminate Hblocked.
  - pose proof (proj2 C8_rotate_applies_only_if_free part0WithT) as H.
    cbn [Part0.currentPiece part0WithT] in H. cbv zeta in H.
    destruct H as [[[_ Hfree]|[Hblocked _]] Hrot].
    + split; [exact Hfree|].
      apply (Hrot 3). split; [reflexivity|repeat constructor].
    + vm_compute in Hblocked. discriminate Hblocked.
Defined.

Lemma C10_hard_drop_loop_terminates_witness :
  (exists (fuel : nat) (newY : Z),
     (forall n, fuel <= n ->
        dropLoop Page.ROWS Page.COLS n emptyBoard (Page.shapeOf TO) 3 0 = Some newY /\
        dropLoop Part0.BOARD_HEIGHT Part0.BOARD_WIDTH n emptyBoard (Page.shapeOf TO) 3 0 = Some newY) /\
     (0 <= newY)%Z /\
     collides Page.ROWS Page.COLS emptyBoard (Page.shapeOf TO) 3 (newY + 1) = true /\
     (forall y', (0 < y' <= newY)%Z ->
        collides Page.ROWS Page.COLS emptyBoard (Page.shapeOf TO) 3 y' = false)) /\
  (forall fuel : nat,
     dropLoop Page.ROWS Page.COLS fuel emptyBoard (zeros 4 4) 3 0 = None /\
     dropLoop Part0.BOARD_HEIGHT Part0.BOARD_WIDTH fuel emptyBoard (zeros 4 4) 3 0 = None).
Proof.
  split.
  - apply (proj1 (C10_hard_drop_loop_terminates emptyBoard (Page.shapeOf TO) 3 0)).
    exists 1, 1, 2%Z. split; [reflexivity|discriminate].
  - apply (proj2 (C10_hard_drop_loop_terminates emptyBoard (zeros 4 4) 3 0)).
    intros i j v Hget. rewrite get_zeros in Hget. case_decide; by simplify_eq.
Defined.

(** ** More about the collision test and the lock *)

Section FreePlacement.
Variables ROWS COLS : Z.

Lemma occupied_false (board : Matrix) (boardY boardX : Z) :
  occupied board boardY boardX = false <->
  get board (Z.to_nat boardY) (Z.to_nat boardX) = Some EMPTY_CELL.
Proof.
  unfold occupied. destruct (get board _ _) as [v|]; [|done].
  rewrite negb_false_iff, Z.eqb_eq. split; [by intros ->|by intros [= ->]].
Qed.

Lemma cellBlocked_false (board : Matrix) (x y : Z) (i j : nat) (v : Z) :
  cellBlocked ROWS COLS board x y i j v = false <->
  (v <> EMPTY_CELL ->
   (0 <= x + Z.of_nat j < COLS)%Z /\ (y + Z.of_nat i < ROWS)%Z /\
   ((0 <= y + Z.of_nat i)%Z ->
    get board (Z.to_nat (y + Z.of_nat i)) (Z.to_nat (x + Z.of_nat j)) = Some EMPTY_CELL)).
Proof.
  unfold cellBlocked. destruct (Z.eqb_spec v EMPTY_CELL) as [Hv|Hv]; [by split|].
  cbv zeta. rewrite !orb_false_iff, andb_false_iff, Z.ltb_ge, !Z.leb_gt, occupied_false.
  split.
  - intros [[[Hx0 Hx1] Hy1] Hocc] _. split; [lia|]. split; [lia|].
    intros Hy0. destruct Hocc as [Hocc|Hocc]; [lia|done].
  - intros H. destruct (H Hv) as ([Hx0 Hx1] & Hy1 & Hocc).
    split; [split; [split|]; lia|].
    destruct (Z.le_gt_cases 0 (y + Z.of_nat i)) as [Hy0|Hy0]; [right; by apply Hocc|left; lia].
Qed.

(** The placement of a shape at [(x, y)] is free exactly when every nonzero
    cell is inside the columns, above the floor, and, if it is on the board,
    on an empty cell. *)
Lemma collides_false (board shape : Matrix) (x y : Z) :
  collides ROWS COLS board shape x y = false <->
  forall i j v, get shape i j = Some v -> v <> EMPTY_CELL ->
    (0 <= x + Z.of_nat j < COLS)%Z /\ (y + Z.of_nat i < ROWS)%Z /\
    ((0 <= y + Z.of_nat i)%Z ->
     get board (Z.to_nat (y + Z.of_nat i)) (Z.to_nat (x + Z.of_nat j)) = Some EMPTY_CELL).
Proof.
  rewrite <- not_true_iff_false, collides_true. split.
  - intros Hn i j v Hget. apply cellBlocked_false, not_true_iff_false.
    intros Hb. apply Hn. by exists i, j, v.
  - intros Hall (i & j & v & Hget & Hb).
    pose proof (proj2 (cellBlocked_false board x y i j v) (Hall i j v Hget)) as Hf.
    by rewrite Hf in Hb.
Qed.

(** The lock of a freely placed shape changes empty cells only. *)
Lemma lockInto_free_changes_empty_only (value : Z -> Z) (board shape : Matrix) (x y : Z) (r c : nat) :
  collides ROWS COLS board shape x y = false ->
  get (lockInto ROWS COLS value board shape x y) r c <> get board r c ->
  get board r c = Some EMPTY_CELL.
Proof.
  intros Hfree Hchg. rewrite get_lockInto in Hchg. unfold written in Hchg.
  case_decide as Hin; [|done].
  unfold landing in Hchg. cbv zeta in Hchg.
  destruct (Z.leb_spec 0 (Z.of_nat r - y)) as [Hi|Hi]; [|done].
  destruct (Z.leb_spec 0 (Z.of_nat c - x)) as [Hj|Hj]; [|done].
  cbn [andb] in Hchg.
  destruct (get shape (Z.to_nat (Z.of_nat r - y)) (Z.to_nat (Z.of_nat c - x))) as [v|] eqn:Hv;
    [|done].
  destruct (Z.eqb_spec v EMPTY_CELL) as [Hz|Hz]; [done|].
  destruct (proj1 (collides_false board shape x y) Hfree _ _ v Hv Hz) as (_ & _ & Hcell).
  rewrite !Z2Nat.id in Hcell by done.
  replace (y + (Z.of_nat r - y))%Z with (Z.of_nat r) in Hcell by lia.
  replace (x + (Z.of_nat c - x))%Z with (Z.of_nat c) in Hcell by lia.
  rewrite !Nat2Z.id in Hcell. apply Hcell. lia.
Qed.

End FreePlacement.

(** X1: [checkCollision] returns [false] exactly when every nonzero cell of
    the shape lies in columns 0..9, above row 20 and, when its row is on
    the board, on an empty board cell; rows above the board are not looked
    up.  Both files. *)
Theorem X1_checkCollision_free_iff (board shape : Matrix) (x y : Z) :
  let free :=
    forall i j v, get shape i j = Some v -> v <> 0%Z ->
      (0 <= x + Z.of_nat j < 10)%Z /\ (y + Z.of_nat i < 20)%Z /\
      ((0 <= y + Z.of_nat i)%Z ->
       get board (Z.to_nat (y + Z.of_nat i)) (Z.to_nat (x + Z.of_nat j)) = Some 0%Z) in
  (forall (type px py : Z),
     Page.checkCollision board (Page.mkPiece shape type px py) x y = false <-> free) /\
  (Part0.checkCollision board shape x y = false <-> free).
Proof.
  intros free. split; [intros type px py|]; apply collides_false.
Qed.

(** X2: when the current piece collides nowhere, the write loop of
    [lockPiece] changes only board cells that were empty: no block already
    on the board is overwritten.  Both files. *)
Theorem X2_lock_of_free_piece_overwrites_nothing :
  (forall (s : Page.State) (p : Page.Piece) (r c : nat),
     Page.checkCollision (Page.board s) p (Page.x p) (Page.y p) = false ->
     get (Page.lockedBoard s p) r c <> get (Page.board s) r c ->
     get (Page.board s) r c = Some 0%Z) /\
  (forall (s : Part0.State) (p : Part0.Piece) (r c : nat),
     Part0.checkCollision (Part0.board s) (Part0.shape p) (Part0.x p) (Part0.y p) = false ->
     get (Part0.lockedBoard s p) r c <> get (Part0.board s) r c ->
     get (Part0.board s) r c = Some 0%Z).
Proof.
  split; intros s p r c Hfree Hchg.
  - by apply (lockInto_free_changes_empty_only Page.ROWS Page.COLS (fun _ => Page.type p)
                (Page.board s) (Page.shape p) (Page.x p) (Page.y p)).
  - by apply (lockInto_free_changes_empty_only Part0.BOARD_HEIGHT Part0.BOARD_WIDTH (fun cell => cell)
                (Part0.board s) (Part0.shape p) (Part0.x p) (Part0.y p)).
Qed.

(** ** Invariants *)

Lemma Page_shapeOf_square (t : Tetromino) : square 4 (Page.shapeOf t).
Proof. destruct t; (split; [reflexivity|repeat constructor]). Qed.

Lemma Part0_shapeOf_square (t : Tetromino) :
  square (length (Part0.shapeOf t)) (Part0.shapeOf t).
Proof. destruct t; (split; [reflexivity|repeat constructor]). Qed.

(** A state with the board and the counters of [s] and an admissible
    current piece keeps the invariant of [s]. *)
Lemma Page_inv_frame (s s' : Page.State) :
  Page.board s' = Page.board s -> Page.level s' = Page.level s ->
  Page.dropInterval s' = Page.dropInterval s ->
  Page.linesCleared s' = Page.linesCleared s -> Page.score s' = Page.score s ->
  (forall p, Page.currentPiece s' = Some p -> square 4 (Page.shape p) /\ (0 <= Page.y p)%Z) ->
  Page_inv s -> Page_inv s'.
Proof.
  intros Hb Hl Hd Hn Hs Hp (Hwf & Hfull & Hlev & Hdi & Hli & Hsc & _).
  unfold Page_inv. rewrite Hb, Hl, Hd, Hn, Hs. done.
Qed.

Lemma Page_inv_lockPiece (s : Page.State) (p : Page.Piece) (t nt : Tetromino) :
  Page.currentPiece s = Some p -> Page_inv s -> Page_inv (Page.lockPiece s t nt s).
Proof.
  intros Hcur (Hwf & Hfull & Hlev & Hdi & Hli & Hsc & Hp).
  assert (Hlen : length (Page.board s) = 20).
  { apply (f_equal length) in Hwf. unfold dims in Hwf.
    by rewrite length_fmap, length_replicate in Hwf. }
  destruct (Page_lock_clears_full_rows s p t nt Hcur Hwf) as (_ & _ & Hnf & Hwf').
  destruct (Page_lockPiece_fields s s p t nt Hcur Hlen)
    as (_ & Hsc' & Hli' & Hlv' & Hdi' & Hcur' & _).
  unfold invoke in Hnf, Hwf'. cbv zeta in Hsc', Hli', Hlv', Hdi', Hcur'.
  set (k := Z.of_nat (length (List.filter isFull (Page.lockedBoard s p)))) in *.
  assert (Hk : (0 <= k)%Z) by (unfold k; lia).
  unfold Page_inv. rewrite Hsc', Hli', Hlv', Hdi', Hcur'.
  split; [done|]. split; [done|]. split; [destruct (_ && _); lia|].
  split; [destruct (_ && _); lia|]. split; [lia|]. split; [nia|].
  intros q [= <-]. split; [apply Page_shapeOf_square|done].
Qed.

(** The [setCurrentPiece] of [hardDrop] is overwritten by the
    [setCurrentPiece] of [spawnPiece], and nothing in between reads it. *)
Lemma Page_setCurrentPiece_then_lockPiece
    (s st : Page.State) (p : Page.Piece) (v : option Page.Piece) (t nt : Tetromino) :
  Page.currentPiece s = Some p ->
  (Page.setCurrentPiece v >>> Page.lockPiece s t nt) st = Page.lockPiece s t nt st.
Proof.
  intros Hcur. unfold Page.lockPiece. rewrite Hcur. cbv zeta.
  generalize (Page.lockedBoard s p) as newBoard. intros newBoard.
  unfold Page.clearLines. cbv zeta.
  generalize (Page.fullRowsOf newBoard) as fullRows. intros fullRows.
  generalize (filterFrom (fun idx (_ : list Z) => negb (includes fullRows idx)) 0 newBoard) as remaining.
  intros remaining. clear Hcur.
  destruct (length fullRows =? 0)%nat;
    [|destruct (Z.rem (Page.linesCleared s + Z.of_nat (length fullRows)) 10 =? 0)%Z];
    run_setters; reflexivity.
Qed.

Lemma Part0_setCurrentPiece_then_lockPiece
    (s st : Part0.State) (p : Part0.Piece) (v : option Part0.Piece) (t nt : Tetromino) :
  Part0.currentPiece s = Some p ->
  (Part0.setCurrentPiece v >>> Part0.lockPiece s t nt) st = Part0.lockPiece s t nt st.
Proof.
  intros Hcur. unfold Part0.lockPiece. rewrite Hcur. cbv zeta.
  generalize (Part0.clearLines (Part0.lockedBoard s p)) as cleared.
  generalize (Part0.lockedBoard s p) as newBoard. intros newBoard cleared. clear Hcur.
  run_setters. reflexivity.
Qed.

Lemma Page_hardDrop_lockPiece (fuel : nat) (t nt : Tetromino)
    (s : Page.State) (p : Page.Piece) (u : Page.State -> Page.State) (st : Page.State) :
  Page.currentPiece s = Some p -> Page.hardDrop fuel t nt s = Some u ->
  u st = Page.lockPiece s t nt st.
Proof.
  intros Hcur Hhd. unfold Page.hardDrop in Hhd. rewrite Hcur in Hhd.
  destruct (dropLoop _ _ _ _ _ _ _) as [newY|]; [|done]. injection Hhd as <-.
  by apply (Page_setCurrentPiece_then_lockPiece s st p).
Qed.

Lemma Part0_hardDrop_lockPiece (fuel : nat) (t nt : Tetromino)
    (s : Part0.State) (p : Part0.Piece) (u : Part0.State -> Part0.State) (st : Part0.State) :
  Part0.currentPiece s = Some p -> Part0.hardDrop fuel t nt s = Some u ->
  u st = Part0.lockPiece s t nt st.
Proof.
  intros Hcur Hhd. unfold Part0.hardDrop in Hhd. rewrite Hcur in Hhd.
  destruct (dropLoop _ _ _ _ _ _ _) as [newY|]; [|done]. injection Hhd as <-.
  by apply (Part0_setCurrentPiece_then_lockPiece s st p).
Qed.

(** X3: with a current piece that has a nonzero cell, [hardDrop] returns
    (its loop is left within [ROWS - y] rounds) and has the effect of
    [lockPiece] alone, in both files: the row found by the loop is set with
    [setCurrentPiece] and then overwritten by [spawnPiece], while
    [lockPiece] writes the piece at the [y] it had in the render. *)
Theorem X3_hardDrop_locks_in_place (t nt : Tetromino) :
  (forall (s : Page.State) (p : Page.Piece),
     Page.currentPiece s = Some p ->
     (exists i j v, get (Page.shape p) i j = Some v /\ v <> EMPTY_CELL) ->
     forall fuel : nat, (Z.to_nat (Page.ROWS - Page.y p)%Z < fuel)%nat ->
     exists u, Page.hardDrop fuel t nt s = Some u /\
               forall st, u st = Page.lockPiece s t nt st) /\
  (forall (s : Part0.State) (p : Part0.Piece),
     Part0.currentPiece s = Some p ->
     (exists i j v, get (Part0.shape p) i j = Some v /\ v <> EMPTY_CELL) ->
     forall fuel : nat, (Z.to_nat (Part0.BOARD_HEIGHT - Part0.y p)%Z < fuel)%nat ->
     exists u, Part0.hardDrop fuel t nt s = Some u /\
               forall st, u st = Part0.lockPiece s t nt st).
Proof.
  split; intros s p Hcur (i & j & v & Hget & Hv) fuel Hfuel.
  - destruct (dropLoop_terminates Page.ROWS Page.COLS (Page.board s) (Page.shape p)
                (Page.x p) i j v Hget Hv (Z.to_nat (Page.ROWS - Page.y p)) (Page.y p))
      as (newY & Hloop & _); [lia|].
    apply (dropLoop_more_fuel _ _ _ _ _ _ fuel) in Hloop; [|lia].
    eexists. split.
    + unfold Page.hardDrop. rewrite Hcur, Hloop. reflexivity.
    + intros st. by apply (Page_setCurrentPiece_then_lockPiece s st p).
  - destruct (dropLoop_terminates Part0.BOARD_HEIGHT Part0.BOARD_WIDTH (Part0.board s)
                (Part0.shape p) (Part0.x p) i j v Hget Hv
                (Z.to_nat (Part0.BOARD_HEIGHT - Part0.y p)) (Part0.y p))
      as (newY & Hloop & _); [lia|].
    apply (dropLoop_more_fuel _ _ _ _ _ _ fuel) in Hloop; [|lia].
    eexists. split.
    + unfold Part0.hardDrop. rewrite Hcur, Hloop. reflexivity.
    + intros st. by apply (Part0_setCurrentPiece_then_lockPiece s st p).
Qed.

Lemma Page_inv_key (fuel : nat) (t nt : Tetromino) (key : string)
    (s : Page.State) (u : Page.State -> Page.State) :
  Page_inv s -> Page.handleKeyDown fuel t nt key s = Some u -> Page_inv (u s).
Proof.
  intros Hinv Hkey. unfold Page.handleKeyDown in Hkey.
  pose proof Hinv as (_ & _ & _ & _ & _ & _ & Hp).
  destruct (negb (isGame (Page.stage s))); [by injection Hkey as <-|].
  destruct (Page.isPaused s); [by injection Hkey as <-|].
  repeat case_decide; try injection Hkey as <-.
  - unfold Page.movePiece. destruct (Page.currentPiece s) as [p|] eqn:Hcur; [|done].
    cbv zeta. destruct (negb _); [|done].
    apply (Page_inv_frame s); try done. intros q [= <-]. cbn. destruct (Hp p eq_refl). split; [done|lia].
  - unfold Page.movePiece. destruct (Page.currentPiece s) as [p|] eqn:Hcur; [|done].
    cbv zeta. destruct (negb _); [|done].
    apply (Page_inv_frame s); try done. intros q [= <-]. cbn. destruct (Hp p eq_refl). split; [done|lia].
  - unfold Page.dropPiece. destruct (Page.currentPiece s) as [p|] eqn:Hcur; [|done].
    cbv zeta. destruct (negb _); [|by apply (Page_inv_lockPiece s p)].
    apply (Page_inv_frame s); try done. intros q [= <-]. cbn. destruct (Hp p eq_refl). split; [done|lia].
  - unfold Page.rotatePiece. destruct (Page.currentPiece s) as [p|] eqn:Hcur; [|done].
    cbv zeta. destruct (negb _); [|done].
    apply (Page_inv_frame s); try done. intros q [= <-]. cbn. destruct (Hp p eq_refl).
    split; [by apply square_rotateMatrix|done].
  - destruct (Page.currentPiece s) as [p|] eqn:Hcur.
    + rewrite (Page_hardDrop_lockPiece fuel t nt s p u s Hcur Hkey).
      by apply (Page_inv_lockPiece s p).
    + unfold Page.hardDrop in Hkey. rewrite Hcur in Hkey. by injection Hkey as <-.
  - by apply (Page_inv_frame s).
  - by apply (Page_inv_frame s).
  - done.
Qed.

Lemma Page_inv_startGame (t nt : Tetromino) (s : Page.State) :
  Page_inv (invoke (Page.startGame t nt) s).
Proof.
  unfold invoke, Page.startGame, Page_inv. run_setters.
  split; [apply dims_zeros|]. split; [by apply Forall_replicate|].
  repeat (split; [lia|]). intros q [= <-]. split; [apply Page_shapeOf_square|done].
Qed.

Lemma Page_inv_gameOverEffect (s : Page.State) :
  Page_inv s -> Page_inv (invoke Page.gameOverEffect s).
Proof.
  intros Hinv. unfold invoke, Page.gameOverEffect.
  pose proof Hinv as (_ & _ & _ & _ & _ & _ & Hp).
  destruct (negb _); [done|]. destruct (hasBlock _); [|done].
  destruct (Page.score s >? Page.highScore s)%Z; unfold andThen, skip;
    by apply (Page_inv_frame s).
Qed.

(** A key of page.tsx either leaves the board, the counters, the stage and
    the high score alone, or does what [lockPiece] does. *)
Lemma Page_key_cases (fuel : nat) (t nt : Tetromino) (key : string)
    (s : Page.State) (u : Page.State -> Page.State) :
  Page.handleKeyDown fuel t nt key s = Some u ->
  (Page.board (u s) = Page.board s /\ Page.score (u s) = Page.score s /\
   Page.linesCleared (u s) = Page.linesCleared s /\ Page.level (u s) = Page.level s /\
   Page.dropInterval (u s) = Page.dropInterval s /\ Page.stage (u s) = Page.stage s /\
   Page.highScore (u s) = Page.highScore s /\ Page.nextPiece (u s) = Page.nextPiece s)
  \/ (exists p, Page.currentPiece s = Some p /\ u s = Page.lockPiece s t nt s).
Proof.
  intros Hkey. unfold Page.handleKeyDown in Hkey.
  destruct (negb (isGame (Page.stage s))); [left; by injection Hkey as <-|].
  destruct (Page.isPaused s); [left; by injection Hkey as <-|].
  repeat case_decide; try injection Hkey as <-.
  - left. unfold Page.movePiece. destruct (Page.currentPiece s) as [p|]; [|done].
    cbv zeta. by destruct (negb _).
  - left. unfold Page.movePiece. destruct (Page.currentPiece s) as [p|]; [|done].
    cbv zeta. by destruct (negb _).
  - unfold Page.dropPiece. destruct (Page.currentPiece s) as [p|] eqn:Hcur; [|by left].
    cbv zeta. destruct (negb _); [by left|right; by exists p].
  - left. unfold Page.rotatePiece. destruct (Page.currentPiece s) as [p|]; [|done].
    cbv zeta. by destruct (negb _).
  - destruct (Page.currentPiece s) as [p|] eqn:Hcur.
    + right. exists p. split; [done|]. by apply (Page_hardDrop_lockPiece fuel t nt s p).
    + left. unfold Page.hardDrop in Hkey. rewrite Hcur in Hkey. by injection Hkey as <-.
  - by left.
  - by left.
  - by left.
Qed.

(** X4: page.tsx keeps its invariant: [startGame] establishes, from any
    state, a board of 20 rows of 10 cells without a full row, level >= 1,
    200 <= drop interval <= 1000, lines >= 0, score >= 0 and a current
    piece with a 4 x 4 shape at a row y >= 0; every key press, the pause
    button and the game-over effect keep all of it. *)
Theorem X4_page_invariant :
  (forall (t nt : Tetromino) (s : Page.State), Page_inv (invoke (Page.startGame t nt) s)) /\
  (forall (fuel : nat) (t nt : Tetromino) (key : string) (s : Page.State) u,
     Page_inv s -> Page.handleKeyDown fuel t nt key s = Some u -> Page_inv (u s)) /\
  (forall s : Page.State, Page_inv s -> Page_inv (invoke Page.pauseButton s)) /\
  (forall s : Page.State, Page_inv s -> Page_inv (invoke Page.gameOverEffect s)).
Proof.
  split; [exact Page_inv_startGame|]. split; [exact Page_inv_key|].
  split; [|exact Page_inv_gameOverEffect].
  intros s Hinv. pose proof Hinv as (_ & _ & _ & _ & _ & _ & Hp).
  by apply (Page_inv_frame s).
Qed.

(** X5: under that invariant no key press of page.tsx lowers the score, the
    lines or the level, or raises the drop interval, and none changes the
    stage or the high score. *)
Theorem X5_page_counters_monotone (fuel : nat) (t nt : Tetromino) (key : string)
    (s : Page.State) (u : Page.State -> Page.State) :
  Page_inv s -> Page.handleKeyDown fuel t nt key s = Some u ->
  (Page.score s <= Page.score (u s))%Z /\
  (Page.linesCleared s <= Page.linesCleared (u s))%Z /\
  (Page.level s <= Page.level (u s) <= Page.level s + 1)%Z /\
  (Page.dropInterval s - 100 <= Page.dropInterval (u s) <= Page.dropInterval s)%Z /\
  Page.stage (u s) = Page.stage s /\
  Page.highScore (u s) = Page.highScore s.
Proof.
  intros (Hwf & _ & Hlev & Hdi & _) Hkey.
  destruct (Page_key_cases fuel t nt key s u Hkey)
    as [(_ & -> & -> & -> & -> & -> & -> & _)|(p & Hcur & ->)];
    [split_and!; first [done | lia]|].
  assert (Hlen : length (Page.board s) = 20).
  { apply (f_equal length) in Hwf. unfold dims in Hwf.
    by rewrite length_fmap, length_replicate in Hwf. }
  destruct (Page_lockPiece_fields s s p t nt Hcur Hlen)
    as (_ & Hsc' & Hli' & Hlv' & Hdi' & _ & _ & Hst & _ & Hhs).
  cbv zeta in Hsc', Hli', Hlv', Hdi'.
  set (k := Z.of_nat (length (List.filter isFull (Page.lockedBoard s p)))) in *.
  assert (Hk : (0 <= k)%Z) by (unfold k; lia).
  rewrite Hsc', Hli', Hlv', Hdi', Hst, Hhs.
  split; [nia|]. split; [lia|]. split; [destruct (_ && _); lia|].
  split; [destruct (_ && _); lia|done].
Qed.

(** The place where part_000 spawns a piece is above the board and inside
    the columns: it collides on no board. *)
Lemma Part0_spawn_free (board : Matrix) (t : Tetromino) :
  Part0.checkCollision board (Part0.shapeOf t)
    ((Part0.BOARD_WIDTH - Z.of_nat (length (nth 0 (Part0.shapeOf t) []))) / 2)
    (- Z.of_nat (length (Part0.shapeOf t))) = false.
Proof.
  apply collides_false. intros i j v Hget _.
  pose proof (Part0_shapeOf_square t) as [_ Hrows].
  assert (Hn : 2 <= length (Part0.shapeOf t) <= 4 /\
               length (nth 0 (Part0.shapeOf t) []) = length (Part0.shapeOf t))
    by (destruct t; vm_compute; lia).
  destruct Hn as [Hn ->].
  unfold get in Hget. destruct (Part0.shapeOf t !! i) as [row|] eqn:Hrow; [|done].
  simpl in Hget. rewrite Forall_lookup in Hrows. specialize (Hrows i row Hrow).
  apply lookup_lt_Some in Hrow, Hget. rewrite Hrows in Hget.
  change Part0.BOARD_WIDTH with 10%Z. change Part0.BOARD_HEIGHT with 20%Z.
  clear Hrows. generalize dependent (length (Part0.shapeOf t)). intros n Hrow Hget Hn.
  assert (Hx : (3 <= (10 - Z.of_nat n) / 2 <= 4)%Z).
  { assert (Hc : n = 2 \/ n = 3 \/ n = 4) by lia.
    destruct Hc as [Hc|[Hc|Hc]]; subst n; vm_compute; split; intros Hd; discriminate Hd. }
  generalize dependent ((10 - Z.of_nat n) / 2)%Z. intros spawnX Hx.
  split; [lia|]. split; [lia|]. intros Habs. lia.
Qed.

(** What [lockPiece] of part_000 leaves in the state. *)
Lemma Part0_lockPiece_fields (s st : Part0.State) (p : Part0.Piece) (t nt : Tetromino) :
  Part0.currentPiece s = Some p ->
  let st' := Part0.lockPiece s t nt st in
  Part0.board st' = Part0.lockedBoard s p /\
  Part0.score st' = (Part0.score st + Part0.clearLines (Part0.lockedBoard s p))%Z /\
  Part0.currentPiece st' =
    Some (Part0.mkPiece (Part0.shapeOf t)
            ((Part0.BOARD_WIDTH - Z.of_nat (length (nth 0 (Part0.shapeOf t) []))) / 2)
            (- Z.of_nat (length (Part0.shapeOf t)))) /\
  Part0.nextPiece st' = Some (Part0.shapeOf nt) /\
  Part0.stage st' = Part0.stage st /\
  Part0.highScore st' = Part0.highScore st /\
  Part0.paused st' = Part0.paused st.
Proof.
  intros Hcur st'. subst st'. unfold Part0.lockPiece. rewrite Hcur. cbv zeta.
  generalize (Part0.clearLines (Part0.lockedBoard s p)) as cleared.
  generalize (Part0.lockedBoard s p) as newBoard. intros newBoard cleared. clear Hcur.
  by run_setters.
Qed.

Lemma Part0_inv_lockPiece (s : Part0.State) (p : Part0.Piece) (t nt : Tetromino) :
  Part0.currentPiece s = Some p -> Part0_inv s -> Part0_inv (Part0.lockPiece s t nt s).
Proof.
  intros Hcur (Hwf & Hsc & (q & Hq) & _).
  destruct (Part0_lockPiece_fields s s p t nt Hcur) as (Hb & Hs & Hc & _).
  cbv zeta in Hb, Hs, Hc.
  assert (Hwf' : wfBoard Part0.BOARD_HEIGHT Part0.BOARD_WIDTH (Part0.lockedBoard s p)).
  { unfold wfBoard, Part0.lockedBoard. by rewrite dims_lockInto. }
  assert (Hlen : length (Part0.lockedBoard s p) = 20).
  { apply (f_equal length) in Hwf'. unfold dims in Hwf'.
    by rewrite length_fmap, length_replicate in Hwf'. }
  rewrite (Part0_clearLines_count _ Hlen) in Hs.
  unfold Part0_inv, Part0_pieceFree. rewrite Hb, Hs, Hc.
  split; [done|]. split; [lia|]. split.
  - exists (q + Z.of_nat (length (List.filter isFull (Part0.lockedBoard s p))))%Z. lia.
  - intros p' [= <-]. apply Part0_spawn_free.
Qed.

(** A key of part_000 either leaves the board, the score, the stage and the
    high score alone and keeps the current piece free, or does what
    [lockPiece] does. *)
Lemma Part0_key_cases (fuel : nat) (t nt : Tetromino) (key : string)
    (s : Part0.State) (u : Part0.State -> Part0.State) :
  Part0_pieceFree s ->
  Part0.handleKeyDown fuel t nt key s = Some u ->
  (Part0.board (u s) = Part0.board s /\ Part0.score (u s) = Part0.score s /\
   Part0.stage (u s) = Part0.stage s /\ Part0.highScore (u s) = Part0.highScore s /\
   Part0_pieceFree (u s))
  \/ (exists p, Part0.currentPiece s = Some p /\ u s = Part0.lockPiece s t nt s).
Proof.
  intros Hfree Hkey. unfold Part0.handleKeyDown in Hkey.
  assert (Hmove : forall dx dy,
    (Part0.board (Part0.movePiece dx dy t nt s s) = Part0.board s /\
     Part0.score (Part0.movePiece dx dy t nt s s) = Part0.score s /\
     Part0.stage (Part0.movePiece dx dy t nt s s) = Part0.stage s /\
     Part0.highScore (Part0.movePiece dx dy t nt s s) = Part0.highScore s /\
     Part0_pieceFree (Part0.movePiece dx dy t nt s s))
    \/ (exists p, Part0.currentPiece s = Some p /\
                  Part0.movePiece dx dy t nt s s = Part0.lockPiece s t nt s)).
  { intros dx dy. unfold Part0.movePiece.
    destruct (Part0.currentPiece s) as [p|] eqn:Hcur; [|by left].
    cbv zeta.
    destruct (Part0.checkCollision (Part0.board s) (Part0.shape p) (Part0.x p + dx) (Part0.y p + dy))
      eqn:Hc; cbn [negb].
    - destruct (dy =? 1)%Z; [right; by exists p|by left].
    - left. repeat (split; [done|]). intros q [= <-]. exact Hc. }
  destruct (negb (isGame (Part0.stage s))); [left; by injection Hkey as <-|].
  repeat case_decide; try injection Hkey as <-; try apply Hmove.
  - left. unfold Part0.rotatePiece. destruct (Part0.currentPiece s) as [p|] eqn:Hcur; [|done].
    cbv zeta.
    destruct (Part0.checkCollision (Part0.board s) (rotateMatrix (Part0.shape p)) (Part0.x p) (Part0.y p))
      eqn:Hc; cbn [negb]; [done|].
    repeat (split; [done|]). intros q [= <-]. exact Hc.
  - destruct (Part0.currentPiece s) as [p|] eqn:Hcur.
    + right. exists p. split; [done|]. by apply (Part0_hardDrop_lockPiece fuel t nt s p).
    + left. unfold Part0.hardDrop in Hkey. rewrite Hcur in Hkey. by injection Hkey as <-.
  - by left.
  - by left.
  - by left.
Qed.

(** X6: part_000 keeps its invariant: [startGame] establishes, from any
    state, a board of 20 rows of 10 cells, a score >= 0 that is a multiple
    of 100 and a current piece that collides nowhere (a piece is spawned
    above the board); every key press keeps all of it.  Under the invariant
    the game-over effect changes nothing: no key press ends the game. *)
Theorem X6_part0_invariant_and_no_game_over :
  (forall (t nt : Tetromino) (s : Part0.State), Part0_inv (invoke (Part0.startGame t nt) s)) /\
  (forall (fuel : nat) (t nt : Tetromino) (key : string) (s : Part0.State) u,
     Part0_inv s -> Part0.handleKeyDown fuel t nt key s = Some u -> Part0_inv (u s)) /\
  (forall s : Part0.State, Part0_inv s -> invoke Part0.gameOverEffect s = s).
Proof.
  split; [|split].
  - intros t nt s. unfold invoke, Part0.startGame, Part0_inv, Part0_pieceFree. run_setters.
    split; [apply dims_zeros|]. split; [lia|]. split; [by exists 0%Z|].
    intros p [= <-]. apply Part0_spawn_free.
  - intros fuel t nt key s u Hinv Hkey. pose proof Hinv as (Hwf & Hsc & Hq & Hfree).
    destruct (Part0_key_cases fuel t nt key s u Hfree Hkey)
      as [(Hb & Hs & _ & _ & Hfree')|(p & Hcur & ->)].
    + unfold Part0_inv. by rewrite Hb, Hs.
    + by apply (Part0_inv_lockPiece s p).
  - intros s (_ & _ & _ & Hfree). unfold invoke, Part0.gameOverEffect.
    destruct (Part0.currentPiece s) as [p|] eqn:Hcur; [|done].
    by rewrite (Hfree p Hcur).
Qed.

(** ** How ticks, moves and rotations compose *)

(** X7: [k] soft drops in a row, each with a collision-free destination,
    move the current piece down by exactly [k] rows and change nothing
    else.  page.tsx: [k] runs of [dropPiece], each in the closure of the
    latest render (the timer effect and the key handler are armed again
    when [currentPiece] changes).  part_000: [k] presses of ArrowDown during
    the game, through [handleKeyDown], which is registered again when
    [currentPiece] changes.  The timer of part_000 is another matter: its
    effect is keyed on [[stage, paused]], so its ticks run the
    [movePiece(0, 1)] of the arming render [s0], and any number of them, at
    least one, leave the piece one row below where it was in [s0]. *)
Theorem X7_free_soft_drops_descend (k fuel : nat) (t nt : Tetromino) :
  (forall (s : Page.State) (p : Page.Piece),
     Page.currentPiece s = Some p ->
     (forall d : Z, (1 <= d <= Z.of_nat k)%Z ->
        Page.checkCollision (Page.board s) p (Page.x p) (Page.y p + d) = false) ->
     Nat.iter k (invoke (Page.dropPiece t nt)) s =
     Page.setCurrentPiece
       (Some (Page.mkPiece (Page.shape p) (Page.type p) (Page.x p) (Page.y p + Z.of_nat k))) s) /\
  (forall (s : Part0.State) (p : Part0.Piece),
     Part0.stage s = game ->
     Part0.currentPiece s = Some p ->
     (forall d : Z, (1 <= d <= Z.of_nat k)%Z ->
        Part0.checkCollision (Part0.board s) (Part0.shape p) (Part0.x p) (Part0.y p + d) = false) ->
     Nat.iter k (fun o => o ≫= press (Part0.handleKeyDown fuel t nt "ArrowDown")) (Some s) =
     Some (Part0.setCurrentPiece
             (Some (Part0.mkPiece (Part0.shape p) (Part0.x p) (Part0.y p + Z.of_nat k))) s)) /\
  (forall (s0 st : Part0.State) (p : Part0.Piece),
     Part0.currentPiece s0 = Some p ->
     Part0.checkCollision (Part0.board s0) (Part0.shape p) (Part0.x p) (Part0.y p + 1) = false ->
     Nat.iter (S k) (Part0.movePiece 0 1 t nt s0) st =
     Part0.setCurrentPiece
       (Some (Part0.mkPiece (Part0.shape p) (Part0.x p) (Part0.y p + 1))) st).
Proof.
  split; [|split].
  - intros s p Hcur; induction k as [|k IH]; intros Hfree.
    + simpl. destruct s, p. simpl in Hcur. subst. unfold Page.setCurrentPiece. simpl.
      by rewrite Z.add_0_r.
    + rewrite Nat.iter_succ, IH by (intros d Hd; apply Hfree; lia).
      pose proof (Hfree (Z.of_nat (S k)) ltac:(lia)) as Hc.
      unfold invoke, Page.dropPiece, Page.checkCollision in Hc |- *.
      cbn [Page.currentPiece Page.setCurrentPiece Page.x Page.y Page.shape Page.type Page.board].
      replace (Page.y p + Z.of_nat k + 1)%Z with (Page.y p + Z.of_nat (S k))%Z by lia.
      rewrite Hc. cbn [negb]. destruct s. reflexivity.
  - intros s p Hstage Hcur; induction k as [|k IH]; intros Hfree.
    + simpl. destruct s, p. simpl in Hcur. subst. unfold Part0.setCurrentPiece. simpl.
      by rewrite Z.add_0_r.
    + rewrite Nat.iter_succ, IH by (intros d Hd; apply Hfree; lia).
      pose proof (Hfree (Z.of_nat (S k)) ltac:(lia)) as Hc.
      cbn [mbind option_bind]. unfold press, Part0.handleKeyDown.
      cbn [Part0.stage Part0.setCurrentPiece]. rewrite Hstage. cbn [isGame negb].
      repeat (case_decide; [done|]). case_decide; [|done].
      cbn [fmap option_fmap option_map]. f_equal.
      unfold Part0.movePiece.
      cbn [Part0.currentPiece Part0.setCurrentPiece Part0.x Part0.y Part0.shape Part0.board].
      rewrite Z.add_0_r.
      replace (Part0.y p + Z.of_nat k + 1)%Z with (Part0.y p + Z.of_nat (S k))%Z by lia.
      rewrite Hc. cbn [negb]. destruct s. reflexivity.
  - intros s0 st p Hcur Hc. unfold Part0.movePiece. rewrite Hcur. cbv zeta.
    rewrite Z.add_0_r, Hc. cbn [negb]. clear Hcur Hc.
    induction k as [|k IH].
    + reflexivity.
    + rewrite Nat.iter_succ, IH. destruct st. reflexivity.
Qed.

(** X8: moving left and back right restores the state exactly, when the
    piece collides neither where it is nor one column to the left.  Both
    files. *)
Theorem X8_move_left_then_right_restores :
  (forall (s : Page.State) (p : Page.Piece),
     Page.currentPiece s = Some p ->
     Page.checkCollision (Page.board s) p (Page.x p) (Page.y p) = false ->
     Page.checkCollision (Page.board s) p (Page.x p - 1) (Page.y p) = false ->
     invoke (Page.movePiece 1 0) (invoke (Page.movePiece (-1) 0) s) = s) /\
  (forall (t nt : Tetromino) (s : Part0.State) (p : Part0.Piece),
     Part0.currentPiece s = Some p ->
     Part0.checkCollision (Part0.board s) (Part0.shape p) (Part0.x p) (Part0.y p) = false ->
     Part0.checkCollision (Part0.board s) (Part0.shape p) (Part0.x p - 1) (Part0.y p) = false ->
     invoke (Part0.movePiece 1 0 t nt) (invoke (Part0.movePiece (-1) 0 t nt) s) = s).
Proof.
  split.
  - intros s p Hcur Hhere Hleft. unfold invoke at 2. unfold Page.movePiece at 2.
    rewrite Hcur. cbv zeta. rewrite Z.add_0_r.
    replace (Page.x p + -1)%Z with (Page.x p - 1)%Z by lia. rewrite Hleft. cbn [negb].
    unfold invoke, Page.movePiece, Page.checkCollision in Hhere |- *.
    cbn [Page.currentPiece Page.setCurrentPiece Page.x Page.y Page.shape Page.type Page.board].
    rewrite Z.add_0_r. replace (Page.x p - 1 + 1)%Z with (Page.x p) by lia.
    rewrite Hhere. cbn [negb].
    destruct s, p. simpl in Hcur. subst. reflexivity.
  - intros t nt s p Hcur Hhere Hleft. unfold invoke at 2. unfold Part0.movePiece at 2.
    rewrite Hcur. cbv zeta. rewrite Z.add_0_r.
    replace (Part0.x p + -1)%Z with (Part0.x p - 1)%Z by lia. rewrite Hleft. cbn [negb].
    unfold invoke, Part0.movePiece.
    cbn [Part0.currentPiece Part0.setCurrentPiece Part0.x Part0.y Part0.shape Part0.board].
    rewrite Z.add_0_r. replace (Part0.x p - 1 + 1)%Z with (Part0.x p) by lia.
    rewrite Hhere. cbn [negb].
    destruct s, p. simpl in Hcur. subst. reflexivity.
Qed.

(** ** The game-over effect, the pause and the restart *)

(** X9: running the game-over effect a second time changes nothing, and the
    effect never lowers the high score nor touches the score or the board.
    Both files. *)
Theorem X9_gameOverEffect_idempotent :
  (forall s : Page.State,
     let s' := invoke Page.gameOverEffect s in
     invoke Page.gameOverEffect s' = s' /\
     (Page.highScore s <= Page.highScore s')%Z /\
     Page.score s' = Page.score s /\ Page.board s' = Page.board s) /\
  (forall s : Part0.State,
     let s' := invoke Part0.gameOverEffect s in
     invoke Part0.gameOverEffect s' = s' /\
     (Part0.highScore s <= Part0.highScore s')%Z /\
     Part0.score s' = Part0.score s /\ Part0.board s' = Part0.board s).
Proof.
  split; intros s; cbv zeta.
  - destruct s as [st b cp np sc li lv di ip hs].
    unfold invoke, Page.gameOverEffect.
    cbn [Page.stage Page.board Page.score Page.highScore].
    destruct (isGame st) eqn:Hst; cbn [negb];
      [destruct (hasBlock (nth 0 b [])) eqn:Hrow;
       [destruct (Z.gtb_spec sc hs) as [Hgt|Hle]|]|];
      run_setters; rewrite ?Hst, ?Hrow; cbn [negb isGame];
      (split; [done|]); (split; [lia|done]).
  - destruct s as [st b cp np sc hs pa].
    unfold invoke, Part0.gameOverEffect.
    cbn [Part0.currentPiece Part0.board Part0.score Part0.highScore].
    destruct cp as [p|]; [|run_setters; split; [done|]; split; [lia|done]].
    destruct (Part0.checkCollision b (Part0.shape p) (Part0.x p) (Part0.y p)) eqn:Hc;
      [destruct (Z.gtb_spec sc hs) as [Hgt|Hle]|];
      run_setters; rewrite ?Hc.
    + assert ((sc >? sc)%Z = false) as -> by (rewrite Z.gtb_ltb; apply Z.ltb_irrefl).
      split; [done|]. split; [lia|done].
    + assert ((sc >? hs)%Z = false) as -> by (rewrite Z.gtb_ltb; by apply Z.ltb_ge).
      split; [done|]. split; [lia|done].
    + split; [done|]. split; [lia|done].
Qed.

(** X10: in page.tsx no key does anything while the game is paused or the
    stage is not "game", the key "p" included: once paused, the keyboard
    does not resume.  In a running game "p" pauses, and a second "p" leaves
    the game paused; the pause button does toggle, two clicks restoring the
    state. *)
Theorem X10_page_keys_ignored_while_paused (fuel : nat) (t nt : Tetromino) :
  (forall (key : string) (s : Page.State),
     Page.stage s <> game \/ Page.isPaused s = true ->
     Page.handleKeyDown fuel t nt key s = Some skip) /\
  (forall s : Page.State,
     Page.stage s = game -> Page.isPaused s = false ->
     exists u, Page.handleKeyDown fuel t nt "p" s = Some u /\
               u s = Page.setIsPaused (fun _ => true) s /\
               Page.handleKeyDown fuel t nt "p" (u s) = Some skip) /\
  (forall s : Page.State, invoke Page.pauseButton (invoke Page.pauseButton s) = s).
Proof.
  split; [|split].
  - intros key s [Hst|Hp]; unfold Page.handleKeyDown.
    + destruct (Page.stage s); done.
    + rewrite Hp. by destruct (negb _).
  - intros s Hst Hp. unfold Page.handleKeyDown. rewrite Hst, Hp. cbn.
    eexists. split; [reflexivity|]. destruct s. cbn in *. subst. done.
  - intros s. unfold invoke, Page.pauseButton. run_setters. by rewrite negb_involutive.
Qed.

(** X11: in part_000 the keys are not gated by the pause: what a key does
    does not depend on the pause flag, "p" toggles the flag, and two "p"
    in a row restore the state; outside the stage "game" no key does
    anything. *)
Theorem X11_part0_pause_key_toggles (fuel : nat) (t nt : Tetromino) :
  (forall (key : string) (f : bool -> bool) (s : Part0.State),
     Part0.handleKeyDown fuel t nt key (Part0.setPaused f s) =
     Part0.handleKeyDown fuel t nt key s) /\
  (forall s : Part0.State,
     Part0.stage s = game ->
     exists u u', Part0.handleKeyDown fuel t nt "p" s = Some u /\
                  Part0.paused (u s) = negb (Part0.paused s) /\
                  Part0.handleKeyDown fuel t nt "p" (u s) = Some u' /\
                  u' (u s) = s) /\
  (forall (key : string) (s : Part0.State),
     Part0.stage s <> game -> Part0.handleKeyDown fuel t nt key s = Some skip).
Proof.
  split; [|split].
  - intros key f s. by destruct s.
  - intros s Hst. unfold Part0.handleKeyDown. rewrite Hst. cbn.
    eexists. eexists. split; [reflexivity|]. destruct s. cbn in *. subst. cbn.
    split; [done|]. split; [reflexivity|]. run_setters. by rewrite negb_involutive.
  - intros key s Hst. unfold Part0.handleKeyDown. destruct (Part0.stage s); done.
Qed.

(** X12: [startGame] keeps nothing of the state but the high score: from
    two states with the same high score it gives the same state.  Both
    files. *)
Theorem X12_startGame_keeps_only_the_high_score (t nt : Tetromino) :
  (forall s1 s2 : Page.State,
     Page.highScore s1 = Page.highScore s2 ->
     invoke (Page.startGame t nt) s1 = invoke (Page.startGame t nt) s2) /\
  (forall s1 s2 : Part0.State,
     Part0.highScore s1 = Part0.highScore s2 ->
     invoke (Part0.startGame t nt) s1 = invoke (Part0.startGame t nt) s2).
Proof.
  split; intros s1 s2 Hhs; unfold invoke, Page.startGame, Part0.startGame;
    run_setters; by subst.
Qed.

(** ** More about the rotation *)

Lemma cell_rotateMatrix (n : nat) (m : Matrix) (i j : nat) :
  square n m -> i < n -> j < n ->
  cell (rotateMatrix m) i j = cell m (n - 1 - j) i.
Proof.
  intros [Hlen _] Hi Hj. unfold cell at 1. rewrite get_rotateMatrix, Hlen.
  by rewrite decide_True.
Qed.

Lemma rotateMatrix_four (n : nat) (m : Matrix) :
  square n m -> rotateMatrix (rotateMatrix (rotateMatrix (rotateMatrix m))) = m.
Proof.
  intros Hsq.
  pose proof (square_rotateMatrix n _ Hsq) as H1.
  pose proof (square_rotateMatrix n _ H1) as H2.
  pose proof (square_rotateMatrix n _ H2) as H3.
  pose proof (square_rotateMatrix n _ H3) as H4.
  apply matrix_eq.
  - apply square_dims in Hsq, H4. by rewrite Hsq, H4.
  - intros i j. destruct (decide (i < n /\ j < n)) as [[Hi Hj]|Hout].
    + rewrite (get_square n _ i j H4 Hi Hj), (get_square n _ i j Hsq Hi Hj). f_equal.
      rewrite (cell_rotateMatrix n _ i j H3), (cell_rotateMatrix n _ (n - 1 - j) i H2),
        (cell_rotateMatrix n _ (n - 1 - i) (n - 1 - j) H1),
        (cell_rotateMatrix n _ (n - 1 - (n - 1 - j)) (n - 1 - i) Hsq) by lia.
      f_equal; lia.
    + by rewrite (get_square_None n _ i j H4), (get_square_None n _ i j Hsq).
Qed.

(** X13: whatever its argument, [rotateMatrix] returns a matrix with as many
    rows as the argument has, each of that same length: the result is sized
    by [matrix.length] alone, and the empty matrix gives the empty matrix. *)
Theorem X13_rotateMatrix_result_is_square (m : Matrix) :
  square (length m) (rotateMatrix m) /\ rotateMatrix [] = [].
Proof. split; [|done]. apply square_dims, dims_rotateMatrix. Qed.

(** X14: on a square matrix two rotations are the half turn: the rows in
    reverse order, each row reversed. *)
Theorem X14_two_rotations_reverse_rows_and_columns (n : nat) (m : Matrix) :
  square n m -> rotateMatrix (rotateMatrix m) = reverse (reverse <$> m).
Proof.
  intros Hsq. pose proof Hsq as [Hlen Hrows].
  pose proof (square_rotateMatrix n _ Hsq) as H1.
  pose proof (square_rotateMatrix n _ H1) as H2.
  assert (Hrev : square n (reverse (reverse <$> m))).
  { split; [by rewrite length_reverse, length_fmap|].
    apply Forall_reverse, Forall_fmap. eapply Forall_impl; [exact Hrows|].
    intros row Hrow. simpl. by rewrite length_reverse. }
  apply matrix_eq.
  - apply square_dims in H2, Hrev. by rewrite H2, Hrev.
  - intros i j. destruct (decide (i < n /\ j < n)) as [[Hi Hj]|Hout].
    + rewrite (get_square n _ i j H2 Hi Hj).
      rewrite (cell_rotateMatrix n _ i j H1), (cell_rotateMatrix n _ (n - 1 - j) i Hsq) by lia.
      unfold get. rewrite reverse_lookup by (rewrite length_fmap; lia).
      rewrite length_fmap, Hlen, list_lookup_fmap.
      destruct (lookup_lt_is_Some_2 m (n - S i)) as [row Hrow]; [lia|].
      rewrite Hrow. simpl. rewrite Forall_lookup in Hrows. pose proof (Hrows _ _ Hrow) as Hl.
      rewrite reverse_lookup by lia. rewrite Hl.
      unfold cell, get. replace (n - 1 - i) with (n - S i) by lia. rewrite Hrow. simpl.
      replace (n - 1 - j) with (n - S j) by lia.
      destruct (lookup_lt_is_Some_2 row (n - S j)) as [v Hv]; [lia|]. by rewrite Hv.
    + by rewrite (get_square_None n _ i j H2), (get_square_None n _ i j Hrev).
Qed.

Lemma Page_rotate_free (s : Page.State) (sh : Matrix) (ty px py : Z) :
  collides Page.ROWS Page.COLS (Page.board s) (rotateMatrix sh) px py = false ->
  invoke Page.rotatePiece (Page.setCurrentPiece (Some (Page.mkPiece sh ty px py)) s) =
  Page.setCurrentPiece (Some (Page.mkPiece (rotateMatrix sh) ty px py)) s.
Proof.
  intros Hc. unfold invoke, Page.rotatePiece, Page.checkCollision.
  cbn [Page.currentPiece Page.setCurrentPiece Page.board Page.shape Page.type Page.x Page.y].
  rewrite Hc. by destruct s.
Qed.

Lemma Part0_rotate_free (s : Part0.State) (sh : Matrix) (px py : Z) :
  collides Part0.BOARD_HEIGHT Part0.BOARD_WIDTH (Part0.board s) (rotateMatrix sh) px py = false ->
  invoke Part0.rotatePiece (Part0.setCurrentPiece (Some (Part0.mkPiece sh px py)) s) =
  Part0.setCurrentPiece (Some (Part0.mkPiece (rotateMatrix sh) px py)) s.
Proof.
  intros Hc. unfold invoke, Part0.rotatePiece, Part0.checkCollision.
  cbn [Part0.currentPiece Part0.setCurrentPiece Part0.board Part0.shape Part0.x Part0.y].
  rewrite Hc. by destruct s.
Qed.

(** X15: four [rotatePiece] in a row restore the state exactly, when the
    shape is square and each of the four orientations is collision-free at
    the anchor.  Both files. *)
Theorem X15_four_free_rotations_restore (n : nat) :
  (forall (s : Page.State) (p : Page.Piece),
     Page.currentPiece s = Some p -> square n (Page.shape p) ->
     (forall k, k < 4 ->
        collides Page.ROWS Page.COLS (Page.board s) (Nat.iter (S k) rotateMatrix (Page.shape p))
          (Page.x p) (Page.y p) = false) ->
     Nat.iter 4 (invoke Page.rotatePiece) s = s) /\
  (forall (s : Part0.State) (p : Part0.Piece),
     Part0.currentPiece s = Some p -> square n (Part0.shape p) ->
     (forall k, k < 4 ->
        collides Part0.BOARD_HEIGHT Part0.BOARD_WIDTH (Part0.board s)
          (Nat.iter (S k) rotateMatrix (Part0.shape p)) (Part0.x p) (Part0.y p) = false) ->
     Nat.iter 4 (invoke Part0.rotatePiece) s = s).
Proof.
  split; intros s p Hcur Hsq Hfree.
  - pose proof (Hfree 0 ltac:(lia)) as H1. pose proof (Hfree 1 ltac:(lia)) as H2.
    pose proof (Hfree 2 ltac:(lia)) as H3. pose proof (Hfree 3 ltac:(lia)) as H4.
    unfold Nat.iter in *. cbn [nat_rect] in *.
    assert (Hs : s = Page.setCurrentPiece
                       (Some (Page.mkPiece (Page.shape p) (Page.type p) (Page.x p) (Page.y p))) s)
      by (destruct s, p; cbn in *; by subst).
    rewrite Hs at 1.
    rewrite (Page_rotate_free s _ _ _ _ H1), (Page_rotate_free s _ _ _ _ H2),
      (Page_rotate_free s _ _ _ _ H3), (Page_rotate_free s _ _ _ _ H4).
    by rewrite (rotateMatrix_four n _ Hsq), <- Hs.
  - pose proof (Hfree 0 ltac:(lia)) as H1. pose proof (Hfree 1 ltac:(lia)) as H2.
    pose proof (Hfree 2 ltac:(lia)) as H3. pose proof (Hfree 3 ltac:(lia)) as H4.
    unfold Nat.iter in *. cbn [nat_rect] in *.
    assert (Hs : s = Part0.setCurrentPiece
                       (Some (Part0.mkPiece (Part0.shape p) (Part0.x p) (Part0.y p))) s)
      by (destruct s, p; cbn in *; by subst).
    rewrite Hs at 1.
    rewrite (Part0_rotate_free s _ _ _ H1), (Part0_rotate_free s _ _ _ H2),
      (Part0_rotate_free s _ _ _ H3), (Part0_rotate_free s _ _ _ H4).
    by rewrite (rotateMatrix_four n _ Hsq), <- Hs.
Qed.

(** ** The board shown by part_000 *)

Lemma forEachFrom_ext {A St : Type} (f g : nat -> A -> St -> St) (k : nat) (l : list A) (s : St) :
  (forall i a st, f i a st = g i a st) -> forEachFrom f k l s = forEachFrom g k l s.
Proof.
  intros Hfg. revert k s. induction l as [|a l IH]; intros k s; simpl; [done|].
  by rewrite Hfg, IH.
Qed.

(** The test of [renderBoard] skips exactly the cells the test of
    [lockPiece] does not write. *)
Lemma Part0_displayCell_lockCell (x y : Z) (r c : nat) (v : Z) (db : Matrix) :
  Part0.displayCell x y r c v db =
  lockCell Part0.BOARD_HEIGHT Part0.BOARD_WIDTH (fun cell => cell) x y r c v db.
Proof.
  unfold Part0.displayCell, lockCell. destruct (v =? EMPTY_CELL)%Z; [done|]. cbv zeta.
  destruct (Z.ltb_spec (y + Z.of_nat r) 0), (Z.leb_spec Part0.BOARD_HEIGHT (y + Z.of_nat r)),
    (Z.ltb_spec (x + Z.of_nat c) 0), (Z.leb_spec Part0.BOARD_WIDTH (x + Z.of_nat c)),
    (Z.leb_spec 0 (y + Z.of_nat r)), (Z.ltb_spec (y + Z.of_nat r) Part0.BOARD_HEIGHT),
    (Z.leb_spec 0 (x + Z.of_nat c)), (Z.ltb_spec (x + Z.of_nat c) Part0.BOARD_WIDTH);
    cbn [orb andb]; first [reflexivity | lia].
Qed.

(** X16: the board [renderBoard] of part_000 draws is the board with the
    current piece written on it exactly as [lockPiece] would write it at
    that moment (the board itself when there is no piece); it has the
    dimensions of the board, so a board of 20 rows of 10 cells is drawn as
    200 grid cells. *)
Theorem X16_part0_renderBoard_shows_the_lock (s : Part0.State) :
  (forall p, Part0.currentPiece s = Some p -> Part0.displayBoard s = Part0.lockedBoard s p) /\
  (Part0.currentPiece s = None -> Part0.displayBoard s = Part0.board s) /\
  dims (Part0.displayBoard s) = dims (Part0.board s) /\
  (wfBoard Part0.BOARD_HEIGHT Part0.BOARD_WIDTH (Part0.board s) ->
   length (Part0.renderedCells s) = 200).
Proof.
  assert (Hshow : forall p, Part0.currentPiece s = Some p ->
                    Part0.displayBoard s = Part0.lockedBoard s p).
  { intros p Hcur. unfold Part0.displayBoard, Part0.lockedBoard, lockInto. rewrite Hcur.
    apply forEachFrom_ext. intros r row db. apply forEachFrom_ext. intros c v db'.
    apply Part0_displayCell_lockCell. }
  assert (Hdims : dims (Part0.displayBoard s) = dims (Part0.board s)).
  { destruct (Part0.currentPiece s) as [p|] eqn:Hcur.
    - rewrite (Hshow p eq_refl). apply dims_lockInto.
    - unfold Part0.displayBoard. by rewrite Hcur. }
  split; [exact Hshow|]. split; [|split; [exact Hdims|]].
  - intros Hcur. unfold Part0.displayBoard. by rewrite Hcur.
  - intros Hwf. unfold Part0.renderedCells. rewrite length_concat.
    change (map length (Part0.displayBoard s)) with (dims (Part0.displayBoard s)).
    rewrite Hdims, Hwf. reflexivity.
Qed.

(** ** Witnesses of the further properties *)

Lemma X2_lock_of_free_piece_overwrites_nothing_witness :
  get (Page.board pageOnFloor) 18 4 = Some 0%Z /\
  get (Part0.board part0OnFloor) 18 4 = Some 0%Z.
Proof.
  split.
  - apply (proj1 X2_lock_of_free_piece_overwrites_nothing pageOnFloor
             (Page.mkPiece (Page.shapeOf TO) 2 3 17) 18 4); [reflexivity|].
    vm_compute. discriminate.
  - apply (proj2 X2_lock_of_free_piece_overwrites_nothing part0OnFloor
             (Part0.mkPiece (Part0.shapeOf TO) 4 18) 18 4); [reflexivity|].
    vm_compute. discriminate.
Defined.

Lemma X3_hardDrop_locks_in_place_witness :
  (exists u, Page.hardDrop 30 TO TI pageWithT = Some u /\
             forall st, u st = Page.lockPiece pageWithT TO TI st) /\
  (exists u, Part0.hardDrop 30 TO TI part0WithT = Some u /\
             forall st, u st = Part0.lockPiece part0WithT TO TI st).
Proof.
  split.
  - apply (proj1 (X3_hardDrop_locks_in_place TO TI) pageWithT
             (Page.mkPiece (Page.shapeOf TT) 3 3 0) eq_refl).
    + exists 1, 0, 3%Z. split; [reflexivity|discriminate].
    + vm_compute. lia.
  - apply (proj2 (X3_hardDrop_locks_in_place TO TI) part0WithT
             (Part0.mkPiece (Part0.shapeOf TT) 3 (-3)) eq_refl).
    + exists 0, 1, 3%Z. split; [reflexivity|discriminate].
    + vm_compute. lia.
Defined.

Lemma X4_page_invariant_witness :
  Page_inv pageNineLines /\
  Page_inv (Page.dropPiece TT TS pageNineLines pageNineLines) /\
  Page_inv (invoke Page.pauseButton pageNineLines) /\
  Page_inv (invoke Page.gameOverEffect pageNineLines).
Proof.
  assert (Hinv : Page_inv pageNineLines).
  { unfold Page_inv. split; [vm_compute; reflexivity|]. split; [vm_compute; repeat constructor|].
    split; [vm_compute; discriminate|]. split; [vm_compute; split; discriminate|].
    split; [vm_compute; discriminate|]. split; [vm_compute; discriminate|].
    vm_compute. intros p [= <-]. split; [split; [reflexivity|repeat constructor]|discriminate]. }
  split; [exact Hinv|].
  destruct X4_page_invariant as (_ & Hkey & Hbutton & Heffect).
  split; [|split].
  - exact (Hkey 0 TT TS "ArrowDown" pageNineLines _ Hinv eq_refl).
  - exact (Hbutton pageNineLines Hinv).
  - exact (Heffect pageNineLines Hinv).
Defined.

Lemma X5_page_counters_monotone_witness :
  (Page.score pageNineLines <= Page.score (Page.dropPiece TT TS pageNineLines pageNineLines))%Z /\
  (Page.level pageNineLines
   <= Page.level (Page.dropPiece TT TS pageNineLines pageNineLines)
   <= Page.level pageNineLines + 1)%Z.
Proof.
  assert (Hinv : Page_inv pageNineLines).
  { unfold Page_inv. split; [vm_compute; reflexivity|]. split; [vm_compute; repeat constructor|].
    split; [vm_compute; discriminate|]. split; [vm_compute; split; discriminate|].
    split; [vm_compute; discriminate|]. split; [vm_compute; discriminate|].
    vm_compute. intros p [= <-]. split; [split; [reflexivity|repeat constructor]|discriminate]. }
  destruct (X5_page_counters_monotone 0 TT TS "ArrowDown" pageNineLines _ Hinv eq_refl)
    as (Hscore & _ & Hlevel & _).
  split; [exact Hscore|exact Hlevel].
Defined.

Lemma X6_part0_invariant_and_no_game_over_witness :
  Part0_inv part0RowReady /\
  Part0_inv (Part0.movePiece 0 1 TT TS part0RowReady part0RowReady) /\
  invoke Part0.gameOverEffect part0RowReady = part0RowReady.
Proof.
  assert (Hinv : Part0_inv part0RowReady).
  { unfold Part0_inv, Part0_pieceFree. split; [vm_compute; reflexivity|].
    split; [vm_compute; discriminate|]. split; [by exists 0%Z|].
    vm_compute. intros p [= <-]. reflexivity. }
  split; [exact Hinv|].
  destruct X6_part0_invariant_and_no_game_over as (_ & Hkey & Heffect).
  split.
  - exact (Hkey 0 TT TS "ArrowDown" part0RowReady _ Hinv eq_refl).
  - exact (Heffect part0RowReady Hinv).
Defined.

Lemma X7_free_soft_drops_descend_witness :
  Nat.iter 2 (invoke (Page.dropPiece TO TS)) pageWithT =
  Page.setCurrentPiece (Some (Page.mkPiece (Page.shapeOf TT) 3 3 (0 + 2))) pageWithT /\
  Nat.iter 2 (fun o => o ≫= press (Part0.handleKeyDown 0 TO TS "ArrowDown")) (Some part0WithT) =
  Some (Part0.setCurrentPiece (Some (Part0.mkPiece (Part0.shapeOf TT) 3 (-3 + 2))) part0WithT) /\
  Nat.iter 3 (Part0.movePiece 0 1 TO TS part0WithT) part0WithT =
  Part0.setCurrentPiece (Some (Part0.mkPiece (Part0.shapeOf TT) 3 (-3 + 1))) part0WithT.
Proof.
  split; [|split].
  - apply (proj1 (X7_free_soft_drops_descend 2 0 TO TS) pageWithT
             (Page.mkPiece (Page.shapeOf TT) 3 3 0) eq_refl).
    intros d Hd. destruct (Z.eq_dec d 1%Z) as [->|Hne]; [reflexivity|].
    assert (d = 2%Z) as -> by lia. reflexivity.
  - apply (proj1 (proj2 (X7_free_soft_drops_descend 2 0 TO TS)) part0WithT
             (Part0.mkPiece (Part0.shapeOf TT) 3 (-3)) eq_refl eq_refl).
    intros d Hd. destruct (Z.eq_dec d 1%Z) as [->|Hne]; [reflexivity|].
    assert (d = 2%Z) as -> by lia. reflexivity.
  - apply (proj2 (proj2 (X7_free_soft_drops_descend 2 0 TO TS)) part0WithT part0WithT
             (Part0.mkPiece (Part0.shapeOf TT) 3 (-3)) eq_refl eq_refl).
Defined.

Lemma X8_move_left_then_right_restores_witness :
  invoke (Page.movePiece 1 0) (invoke (Page.movePiece (-1) 0) pageStarted) = pageStarted /\
  invoke (Part0.movePiece 1 0 TT TS) (invoke (Part0.movePiece (-1) 0 TT TS) part0Started)
  = part0Started.
Proof.
  split.
  - exact (proj1 X8_move_left_then_right_restores pageStarted _ eq_refl eq_refl eq_refl).
  - exact (proj2 X8_move_left_then_right_restores TT TS part0Started _ eq_refl eq_refl eq_refl).
Defined.

Lemma X10_page_keys_ignored_while_paused_witness :
  Page.handleKeyDown 30 TT TS "p" (Page.setIsPaused (fun _ => true) pageStarted) = Some skip /\
  exists u, Page.handleKeyDown 30 TT TS "p" pageStarted = Some u /\
            u pageStarted = Page.setIsPaused (fun _ => true) pageStarted /\
            Page.handleKeyDown 30 TT TS "p" (u pageStarted) = Some skip.
Proof.
  destruct (X10_page_keys_ignored_while_paused 30 TT TS) as (Hpaused & Hp & _).
  split.
  - apply Hpaused. right. reflexivity.
  - apply Hp; reflexivity.
Defined.

Lemma X11_part0_pause_key_toggles_witness :
  (exists u u', Part0.handleKeyDown 30 TT TS "p" part0Started = Some u /\
                Part0.paused (u part0Started) = negb (Part0.paused part0Started) /\
                Part0.handleKeyDown 30 TT TS "p" (u part0Started) = Some u' /\
                u' (u part0Started) = part0Started) /\
  Part0.handleKeyDown 30 TT TS "p" part0Init = Some skip.
Proof.
  destruct (X11_part0_pause_key_toggles 30 TT TS) as (_ & Hp & Hout).
  split.
  - apply Hp. reflexivity.
  - apply Hout. discriminate.
Defined.

Lemma X12_startGame_keeps_only_the_high_score_witness :
  invoke (Page.startGame TT TS) pageOnFloor = invoke (Page.startGame TT TS) pageInit /\
  invoke (Part0.startGame TT TS) part0RowReady = invoke (Part0.startGame TT TS) part0Init.
Proof.
  split.
  - exact (proj1 (X12_startGame_keeps_only_the_high_score TT TS) pageOnFloor pageInit eq_refl).
  - exact (proj2 (X12_startGame_keeps_only_the_high_score TT TS) part0RowReady part0Init eq_refl).
Defined.

Lemma X14_two_rotations_reverse_rows_and_columns_witness :
  square 4 (Page.shapeOf TL) /\
  rotateMatrix (rotateMatrix (Page.shapeOf TL)) = reverse (reverse <$> Page.shapeOf TL).
Proof.
  assert (Hsq : square 4 (Page.shapeOf TL)) by (split; [reflexivity|repeat constructor]).
  split; [exact Hsq|].
  exact (X14_two_rotations_reverse_rows_and_columns 4 (Page.shapeOf TL) Hsq).
Defined.

Lemma X15_four_free_rotations_restore_witness :
  (Nat.iter 4 (invoke Page.rotatePiece) pageWithT = pageWithT /\
   Nat.iter 4 (invoke Part0.rotatePiece) part0WithT = part0WithT) /\
  (invoke Page.rotatePiece pageWithT <> pageWithT /\
   invoke Part0.rotatePiece part0WithT <> part0WithT).
Proof.
  split; split.
  - apply (proj1 (X15_four_free_rotations_restore 4) pageWithT
             (Page.mkPiece (Page.shapeOf TT) 3 3 0) eq_refl).
    + split; [reflexivity|repeat constructor].
    + intros k Hk. destruct k as [|[|[|[|k]]]]; [reflexivity..|lia].
  - apply (proj2 (X15_four_free_rotations_restore 3) part0WithT
             (Part0.mkPiece (Part0.shapeOf TT) 3 (-3)) eq_refl).
    + split; [reflexivity|repeat constructor].
    + intros k Hk. destruct k as [|[|[|[|k]]]]; [reflexivity..|lia].
  - vm_compute. discriminate.
  - vm_compute. discriminate.
Defined.

Lemma X16_part0_renderBoard_shows_the_lock_witness :
  Part0.displayBoard part0RowReady =
  Part0.lockedBoard part0RowReady (Part0.mkPiece (Part0.shapeOf TI) 6 18) /\
  length (Part0.renderedCells part0RowReady) = 200.
Proof.
  destruct (X16_part0_renderBoard_shows_the_lock part0RowReady) as (Hshow & _ & _ & Hcells).
  split.
  - apply Hshow. reflexivity.
  - apply Hcells. reflexivity.
Defined.
